(** * AutoHotkey.py: the option encoders and validators of [ahkpy/keys.py]
      and the item addressing of [ahkpy/menu.py]

The Python layer marshals arguments and builds option strings; every
effect it has is a call across the bridge to the AutoHotkey host.  The
embedding therefore keeps two things apart:

- the pure part (option tokens, case folding, range checks), written as
  total functions over Python values;
- the effectful part, written in a small monad [io] that records, in
  order, every call made across the bridge and can raise a Python
  exception.

The host is taken to answer every call; what it answers is left to an
instance of [AhkHost].  The locks of the source
([BaseHotkeyContext._lock], [send_lock]) serialise threads and have no
effect on a single caller, so they do not appear. *)

From Stdlib Require Import ZArith Bool List String Ascii Floats Lia.
From Stdlib Require Import DecimalString DecimalZ DecimalPos.
Import ListNotations.

#[local] Open Scope string_scope.
#[local] Open Scope list_scope.
#[local] Open Scope Z_scope.

(* ===================================================================== *)
(** * The part of the Python runtime the two modules rely on *)
(* ===================================================================== *)

Module Py.

(** A Python [str] is modelled by a Rocq [string] whose characters are
    read as the code points 0..255.  On that range [str.lower] maps A-Z
    and the Latin-1 capitals (U+00C0..U+00DE without the multiplication
    sign U+00D7) 32 places up and leaves every other code point alone. *)
Definition is_upper (c : ascii) : bool :=
  let n := N_of_ascii c in
  (((65 <=? n) && (n <=? 90)) ||
   ((192 <=? n) && (n <=? 222) && negb (n =? 215)))%N.

Definition lower_char (c : ascii) : ascii :=
  if is_upper c then ascii_of_N (N_of_ascii c + 32) else c.

Fixpoint lower (s : string) : string :=
  match s with
  | EmptyString => EmptyString
  | String c rest => String (lower_char c) (lower rest)
  end.

(** [str(n)] and the [{n}] of an f-string, for an [int]. *)
Definition str_of_int (z : Z) : string :=
  NilZero.string_of_int (Z.to_int z).

(** [x in (a, b, ...)] for strings. *)
Definition str_in (x : string) (l : list string) : bool :=
  existsb (String.eqb x) l.

(** [bool(s)] for a string. *)
Definition str_truth (s : string) : bool :=
  match s with EmptyString => false | _ => true end.

(** A keyword argument that is [None], [True] or [False]:
    [truth] is the test [if x:], [given] the test [x is not None]. *)
Definition truth (x : option bool) : bool :=
  match x with Some true => true | _ => false end.

Definition given {A : Type} (x : option A) : bool :=
  match x with Some _ => true | None => false end.

(** [x is False] *)
Definition is_False (x : option bool) : bool :=
  match x with Some false => true | _ => false end.

(** Numbers: Python's unbounded [int] and its binary64 [float]. *)
Inductive number : Type :=
| PyInt (z : Z)
| PyFloat (f : float).

(** [x > 0] *)
Definition gt0 (x : number) : bool :=
  match x with
  | PyInt z => 0 <? z
  | PyFloat f => PrimFloat.ltb 0%float f
  end.

(** [x <= 0] (not the negation of [gt0]: a NaN is neither) *)
Definition le0 (x : number) : bool :=
  match x with
  | PyInt z => z <=? 0
  | PyFloat f => PrimFloat.leb f 0%float
  end.

(** [x * 1000]: exact on [int]; on [float] the int is converted and the
    product rounded to binary64. *)
Definition times1000 (x : number) : number :=
  match x with
  | PyInt z => PyInt (z * 1000)
  | PyFloat f => PyFloat (PrimFloat.mul f 1000%float)
  end.

Inductive exn : Type :=
| ValueError (msg : string)
| TypeError (msg : string)
| OverflowError (msg : string)
| Error (msg : string).          (* ahkpy.exceptions.Error *)

Inductive outcome (A : Type) : Type :=
| Returns (a : A)
| Raises (e : exn).
Arguments Returns {A} a.
Arguments Raises {A} e.

Definition outcome_map {A B : Type} (f : A -> B) (o : outcome A) : outcome B :=
  match o with
  | Returns a => Returns (f a)
  | Raises e => Raises e
  end.

(** [int(x)]: an [int] is returned as it is; a finite [float]
    (-1)^s * m * 2^e is cut towards zero; an infinity and a NaN raise. *)
Definition to_int (x : number) : outcome Z :=
  match x with
  | PyInt z => Returns z
  | PyFloat f =>
      match Prim2SF f with
      | S754_zero _ => Returns 0
      | S754_finite s m e =>
          let a := if 0 <=? e then Z.shiftl (Zpos m) e
                   else Z.shiftr (Zpos m) (- e) in
          Returns (if s then - a else a)
      | S754_infinity _ =>
          Raises (OverflowError "cannot convert float infinity to integer")
      | S754_nan =>
          Raises (ValueError "cannot convert float NaN to integer")
      end
  end.

End Py.

Import Py.

(* ===================================================================== *)
(** * The bridge to the host: [_ahk.call] and [ahk_call] *)
(* ===================================================================== *)

(** A Python callable handed to the host.  [UserFunc] is a function of the
    caller, known by a name; [SendClosure keys] is a nested function of
    [remap_key], whose body is [send(keys)]. *)
Inductive callable : Type :=
| UserFunc (name : string)
| SendClosure (keys : string).

(** keys.py, [BaseHotkeyContext] (the default context, no fields) and its
    subclass [HotkeyContext] (one field, the wrapped predicate). *)
Inductive BaseHotkeyContext : Type :=
| default_context
| HotkeyContext (predicate : callable).

(** Python objects: the arguments and answers of the bridge, and the
    arguments of the methods that take objects of several types. *)
Inductive value : Type :=
| VNone
| VStr (s : string)
| VInt (z : Z)
| VFunc (f : callable)
| VUnset.                           (* ahkpy.unset.UNSET *)

(** What the runtime and the modules outside this development supply and
    is not spelled out here. *)
Class Runtime : Type := {
  float_repr : float -> string;               (* f"{x}" for a float *)
  str_repr : string -> string;                (* f"{s!r}" for a str *)
  hash_context : BaseHotkeyContext -> Z;      (* hash(context) *)
  UNSET_truth : bool                          (* bool(UNSET) *)
}.

(** [f"{x}"] for a number. *)
Definition format_number `{Runtime} (x : number) : string :=
  match x with
  | PyInt z => str_of_int z
  | PyFloat f => float_repr f
  end.

(** [bool(x)] *)
Definition value_truth `{Runtime} (v : value) : bool :=
  match v with
  | VNone => false
  | VStr s => str_truth s
  | VInt z => negb (z =? 0)
  | VFunc _ => true
  | VUnset => UNSET_truth
  end.

(** [x is not None] *)
Definition not_None (v : value) : bool :=
  match v with VNone => false | _ => true end.

Record call : Type := Call { cmd : string; args : list value }.

(** What the host has been asked so far, oldest call first. *)
Definition host : Type := list call.

(** The answer of the host to a call, given the calls before it. *)
Class AhkHost : Type := { ahk_reply : host -> call -> value }.

Definition io (A : Type) : Type := host -> outcome A * host.

Definition ret {A : Type} (a : A) : io A := fun h => (Returns a, h).

Definition raise {A : Type} (e : exn) : io A := fun h => (Raises e, h).

Definition bind {A B : Type} (m : io A) (k : A -> io B) : io B :=
  fun h =>
    match m h with
    | (Returns a, h') => k a h'
    | (Raises e, h') => (Raises e, h')
    end.

(** A pure computation that may raise, run inside [io]. *)
Definition lift {A : Type} (o : outcome A) : io A := fun h => (o, h).

Declare Scope io_scope.
Delimit Scope io_scope with io.
Notation "x <- m ;; k" := (bind m (fun x => k))
  (at level 61, m at next level, right associativity) : io_scope.
Notation "m ;; k" := (bind m (fun _ => k))
  (at level 61, right associativity) : io_scope.
#[local] Open Scope io_scope.

(** [_ahk.call(cmd, *args)]: the call is recorded and the host answers. *)
Definition ahk_call `{AhkHost} (cmd : string) (args : list value) : io value :=
  fun h => (Returns (ahk_reply h (Call cmd args)), h ++ [Call cmd args]).

(* ===================================================================== *)
(** * ahkpy/keys.py *)
(* ===================================================================== *)

(* keys.py:32-35 *)
Module SendMode.
Definition INPUT : string := "input".
Definition PLAY : string := "play".
Definition EVENT : string := "event".
End SendMode.

Section KeyState.
Context `{AhkHost} `{Runtime}.

Definition opt_str (o : option string) : value :=
  match o with Some s => VStr s | None => VNone end.

(* keys.py:52-56 *)
Definition _get_key_state (key_name : string) (mode : option string) : io bool :=
  result <- ahk_call "GetKeyState" [VStr key_name; opt_str mode] ;;
  match result with
  | VStr "" =>
      raise (ValueError
        "key_name is invalid or the state of the key could not be determined")
  | _ => ret (value_truth result)
  end.

(* keys.py:38-39 *)
Definition get_key_state (key_name : string) : io bool :=
  _get_key_state key_name None.

(* keys.py:42-43 *)
Definition get_physical_key_state (key_name : string) : io bool :=
  _get_key_state key_name (Some "P").

Definition toggle_keys : list string :=
  ["capslock"; "numlock"; "scrolllock"; "insert"; "ins"].

(* keys.py:46-49 *)
Definition is_key_toggled (key_name : string) : io bool :=
  if negb (str_in (lower key_name) toggle_keys) then
    raise (ValueError
      "key_name must be one of CapsLock, NumLock, ScrollLock, or Insert")
  else _get_key_state key_name (Some "T").

End KeyState.

Module BaseContext.
Section Manager.
Context `{AhkHost}.

(* keys.py:200-204 and 227-231 *)
Definition _enter (self : BaseHotkeyContext) : io unit :=
  match self with
  | default_context => ret tt
  | HotkeyContext predicate =>
      ahk_call "HotkeyContext" [VFunc predicate] ;; ret tt
  end.

Definition _exit (self : BaseHotkeyContext) : io unit :=
  match self with
  | default_context => ret tt
  | HotkeyContext _ => ahk_call "HotkeyExitContext" [] ;; ret tt
  end.

(** keys.py:173-198, [with self._manager(): body].  The generator has no
    [try]/[finally] around its [yield]: when the body raises, [_exit] is
    not reached. *)
Definition _manager {A : Type} (self : BaseHotkeyContext) (body : io A) : io A :=
  _enter self ;;
  r <- body ;;
  _exit self ;;
  ret r.

End Manager.
End BaseContext.

Module Hotkey.

Record t : Type := Hotkey { key_name : string; context : BaseHotkeyContext }.

Section Hotkey.
Context `{AhkHost} `{Runtime}.

(* keys.py:249-259 *)
Definition enable (self : t) : io unit :=
  BaseContext._manager (context self)
    (ahk_call "HotkeySpecial" [VStr (key_name self); VStr "On"]) ;; ret tt.

Definition disable (self : t) : io unit :=
  BaseContext._manager (context self)
    (ahk_call "HotkeySpecial" [VStr (key_name self); VStr "Off"]) ;; ret tt.

Definition toggle (self : t) : io unit :=
  BaseContext._manager (context self)
    (ahk_call "HotkeySpecial" [VStr (key_name self); VStr "Toggle"]) ;; ret tt.

(** [func or ""] *)
Definition func_or_empty (func : option callable) : value :=
  match func with Some f => VFunc f | None => VStr "" end.

(* keys.py:261-282 *)
Definition update_options
    (buffer : option bool) (priority max_threads input_level : option Z)
    : list string :=
  let options := [] in
  let options :=
    if truth buffer then options ++ ["B"]
    else if given buffer then options ++ ["B0"]
    else options in
  let options :=
    match priority with
    | Some p => options ++ [("P" ++ str_of_int p)%string]
    | None => options
    end in
  let options :=
    match max_threads with
    | Some n => options ++ [("T" ++ str_of_int n)%string]
    | None => options
    end in
  let options :=
    match input_level with
    | Some n => options ++ [("I" ++ str_of_int n)%string]
    | None => options
    end in
  options.

Definition update (self : t) (func : option callable)
    (buffer : option bool) (priority max_threads input_level : option Z)
    : io unit :=
  let option_str :=
    String.concat "" (update_options buffer priority max_threads input_level) in
  let context_hash := VInt (hash_context (context self)) in
  BaseContext._manager (context self)
    (ahk_call "Hotkey"
       [context_hash; VStr (key_name self); func_or_empty func; VStr option_str]) ;;
  ret tt.

End Hotkey.
End Hotkey.

Module Hotstring.

Record t : Type := Hotstring_raw {
  string : String.string;
  case_sensitive : bool;
  replace_inside_word : bool;
  context : BaseHotkeyContext
}.

(** keys.py:299-301.  The trigger is a [str], so [hasattr(.., 'lower')]
    holds. *)
Definition __post_init__ (self : t) : t :=
  let hasattr_lower := true in
  if hasattr_lower && negb (case_sensitive self)
  then Hotstring_raw (lower (string self)) (case_sensitive self)
         (replace_inside_word self) (context self)
  else self.

(** [Hotstring(string, case_sensitive, replace_inside_word, context)]:
    the generated [__init__] stores the fields and calls
    [__post_init__]. *)
Definition Hotstring (string : String.string)
    (case_sensitive replace_inside_word : bool)
    (context : BaseHotkeyContext) : t :=
  __post_init__
    (Hotstring_raw string case_sensitive replace_inside_word context).

Inductive replacement_t : Type :=
| RStr (s : String.string)
| RFunc (f : callable).

(** The keyword arguments of [update]; [None] is the default of each. *)
Record update_args : Type := Args {
  replacement : option replacement_t;
  conform_to_case : option bool;
  wait_for_end_char : option bool;
  omit_end_char : option bool;
  backspacing : option bool;
  priority : option Z;
  text : option bool;
  mode : option String.string;
  key_delay : option number;
  reset_recognizer : option bool
}.

Definition no_args : update_args :=
  Args None None None None None None None None None None.

(* keys.py:315-318 *)
Definition _id_options (self : t) : String.string :=
  let case_option := if case_sensitive self then "C" else "" in
  let replace_inside_option := if replace_inside_word self then "?" else "?0" in
  (case_option ++ replace_inside_option)%string.

(** [replacement or ""] *)
Definition replacement_or_empty (r : option replacement_t) : value :=
  match r with
  | Some (RStr s) => VStr s
  | Some (RFunc f) => VFunc f
  | None => VStr ""
  end.

(* keys.py:326-331 *)
Definition case_options (self : t) (conform_to_case : option bool)
    : list String.string :=
  if case_sensitive self then ["C"]
  else if truth conform_to_case then ["C0"]
  else if given conform_to_case then ["C1"]
  else [].

(* keys.py:333-336 *)
Definition inside_options (self : t) : list String.string :=
  if replace_inside_word self then ["?"] else ["?0"].

(** keys.py:338-347.  [wait_for_end_char is False] is the first test;
    the arguments are [None] or a [bool]. *)
Definition end_char_options (wait_for_end_char omit_end_char : option bool)
    : list String.string :=
  if is_False wait_for_end_char then ["*"]
  else if truth omit_end_char then ["*0"; "O"]
  else
    (if truth wait_for_end_char then ["*0"] else []) ++
    (if is_False omit_end_char then ["O0"] else []).

(** The tri-state flags of keys.py:349-352, 362-365 and 378-381. *)
Definition flag_options (on off : String.string) (flag : option bool)
    : list String.string :=
  if truth flag then [on]
  else if given flag then [off]
  else [].

Section WithRuntime.
Context `{Runtime}.

(* keys.py:354-357 *)
Definition key_delay_options (key_delay : option number)
    : outcome (list String.string) :=
  match key_delay with
  | None => Returns []
  | Some key_delay =>
      let key_delay :=
        if gt0 key_delay
        then outcome_map PyInt (to_int (times1000 key_delay))
        else Returns key_delay in
      match key_delay with
      | Returns key_delay =>
          Returns [("K" ++ format_number key_delay)%string]
      | Raises e => Raises e
      end
  end.

(* keys.py:359-360 *)
Definition priority_options (priority : option Z) : list String.string :=
  match priority with
  | Some p => [("P" ++ str_of_int p)%string]
  | None => []
  end.

(* keys.py:369-376 *)
Definition mode_options (mode : option String.string) : list String.string :=
  let mode := option_map lower mode in
  match mode with
  | None => []
  | Some mode =>
      if (mode =? SendMode.INPUT)%string then ["SI"]
      else if (mode =? SendMode.PLAY)%string then ["SP"]
      else if (mode =? SendMode.EVENT)%string then ["SE"]
      else []
  end.

(** keys.py:324-381: the list [options] when the end of the method's
    first half is reached, or the exception of [int(...)]. *)
Definition update_options (self : t) (a : update_args)
    : outcome (list String.string) :=
  let options := [] in
  let options := options ++ case_options self (conform_to_case a) in
  let options := options ++ inside_options self in
  let options :=
    options ++ end_char_options (wait_for_end_char a) (omit_end_char a) in
  let options := options ++ flag_options "B" "B0" (backspacing a) in
  match key_delay_options (key_delay a) with
  | Raises e => Raises e
  | Returns k =>
      let options := options ++ k in
      let options := options ++ priority_options (priority a) in
      let options := options ++ flag_options "T" "T0" (text a) in
      let options := options ++ mode_options (mode a) in
      let options := options ++ flag_options "Z" "Z0" (reset_recognizer a) in
      Returns options
  end.

Context `{AhkHost}.

(* keys.py:303-313 *)
Definition id_string (self : t) : String.string :=
  (":" ++ _id_options self ++ ":" ++ string self)%string.

Definition disable (self : t) : io unit :=
  BaseContext._manager (context self)
    (ahk_call "Hotstring" [VStr (id_string self); VStr ""; VStr "Off"]) ;;
  ret tt.

Definition enable (self : t) : io unit :=
  BaseContext._manager (context self)
    (ahk_call "Hotstring" [VStr (id_string self); VStr ""; VStr "On"]) ;;
  ret tt.

Definition toggle (self : t) : io unit :=
  BaseContext._manager (context self)
    (ahk_call "Hotstring" [VStr (id_string self); VStr ""; VStr "Toggle"]) ;;
  ret tt.

(* keys.py:320-387 *)
Definition update (self : t) (a : update_args) : io unit :=
  options <- lift (update_options self a) ;;
  let option_str := String.concat "" options in
  BaseContext._manager (context self)
    (ahk_call "Hotstring"
       [VStr (":" ++ option_str ++ ":" ++ string self)%string;
        replacement_or_empty (replacement a)]) ;;
  ret tt.

End WithRuntime.
End Hotstring.

Module RemappedKey.

Record t : Type := RemappedKey {
  wildcard_origin : Hotkey.t;
  wildcard_origin_up : Hotkey.t
}.

Section RemappedKey.
Context `{AhkHost} `{Runtime}.

(* keys.py:437-447 *)
Definition enable (self : t) : io unit :=
  Hotkey.enable (wildcard_origin self) ;;
  Hotkey.enable (wildcard_origin_up self).

Definition disable (self : t) : io unit :=
  Hotkey.disable (wildcard_origin self) ;;
  Hotkey.disable (wildcard_origin_up self).

Definition toggle (self : t) : io unit :=
  Hotkey.toggle (wildcard_origin self) ;;
  Hotkey.toggle (wildcard_origin_up self).

End RemappedKey.
End RemappedKey.

Section Keys.
Context `{AhkHost} `{Runtime}.

(** The keyword arguments of [BaseHotkeyContext.hotkey] and their
    defaults, keys.py:95-98. *)
Record hotkey_kwargs : Type := HotkeyKwargs {
  buffer : option bool;
  priority : option Z;
  max_threads : option Z;
  input_level : option Z
}.

Definition hotkey_defaults : hotkey_kwargs :=
  HotkeyKwargs (Some false) (Some 0) (Some 1) (Some 0).

(** keys.py:90-130, [self.hotkey(key_name, func, ...)] and, what comes to
    the same calls, [self.hotkey(key_name, ...)(func)]. *)
Definition BaseHotkeyContext_hotkey (self : BaseHotkeyContext)
    (key_name : string) (func : callable) (kw : hotkey_kwargs)
    : io Hotkey.t :=
  if (key_name =? "")%string then raise (Error "invalid key name")
  else
    let hk := Hotkey.Hotkey key_name self in
    Hotkey.update hk (Some func)
      (buffer kw) (priority kw) (max_threads kw) (input_level kw) ;;
    Hotkey.enable hk ;;
    ret hk.

(** The keyword arguments of [BaseHotkeyContext.hotstring] and their
    defaults, keys.py:137-147. *)
Definition hotstring_defaults (replacement : Hotstring.replacement_t)
    : Hotstring.update_args :=
  Hotstring.Args (Some replacement) (Some true) (Some true) (Some false)
    (Some true) (Some 0) (Some false) None (Some (PyInt (-1))) (Some false).

(** [update(replacement=r, ...)], the options as in [kw]. *)
Definition with_replacement (r : option Hotstring.replacement_t)
    (kw : Hotstring.update_args) : Hotstring.update_args :=
  Hotstring.Args r (Hotstring.conform_to_case kw)
    (Hotstring.wait_for_end_char kw) (Hotstring.omit_end_char kw)
    (Hotstring.backspacing kw) (Hotstring.priority kw) (Hotstring.text kw)
    (Hotstring.mode kw) (Hotstring.key_delay kw) (Hotstring.reset_recognizer kw).

(** keys.py:150-167, the nested [hotstring_decorator]: it closes over the
    trigger, the flags and the options [kw] of the enclosing call and
    takes the replacement. *)
Definition hotstring_decorator (self : BaseHotkeyContext)
    (string : String.string) (case_sensitive replace_inside_word : bool)
    (kw : Hotstring.update_args)
    (replacement : option Hotstring.replacement_t) : io Hotstring.t :=
  let hs := Hotstring.Hotstring string case_sensitive replace_inside_word self in
  Hotstring.update hs (with_replacement replacement kw) ;;
  (* Enable the hotstring in case another hotstring with the same
     'string' existed before, but was disabled. *)
  Hotstring.enable hs ;;
  ret hs.

(** keys.py:132-171.  Without a replacement the decorator is returned and
    nothing is registered; with one the decorator is applied to it. *)
Definition BaseHotkeyContext_hotstring (self : BaseHotkeyContext)
    (string : String.string) (replacement : option Hotstring.replacement_t)
    (case_sensitive replace_inside_word : bool) (kw : Hotstring.update_args)
    : io ((option Hotstring.replacement_t -> io Hotstring.t) + Hotstring.t) :=
  match replacement with
  | None =>
      ret (inl (hotstring_decorator self string case_sensitive
                  replace_inside_word kw))
  | Some _ =>
      hs <- hotstring_decorator self string case_sensitive
              replace_inside_word kw replacement ;;
      ret (inr hs)
  end.

(* keys.py:208 *)
Definition hotkey (key_name : string) (func : callable) : io Hotkey.t :=
  BaseHotkeyContext_hotkey default_context key_name func hotkey_defaults.

(* keys.py:417-429 *)
Definition remap_key (origin_key destination_key : string) : io RemappedKey.t :=
  wildcard_origin <-
    hotkey ("*" ++ origin_key)%string
      (SendClosure ("{Blind}{" ++ destination_key ++ " DownR}")%string) ;;
  wildcard_origin_up <-
    hotkey ("*" ++ origin_key ++ " Up")%string
      (SendClosure ("{Blind}{" ++ destination_key ++ " Up}")%string) ;;
  ret (RemappedKey.RemappedKey wildcard_origin wildcard_origin_up).

(* keys.py:471-474 *)
Definition _send_level (level : Z) : io unit :=
  if negb ((0 <=? level) && (level <=? 100)) then
    raise (ValueError "level must be between 0 and 100")
  else
    ahk_call "SendLevel" [VInt level] ;; ret tt.

(* keys.py:453-468 *)
Definition send (keys : string) (mode : string) (level : Z) : io unit :=
  cmd <-
    (if (mode =? SendMode.INPUT)%string then ret "SendInput"
     else if (mode =? SendMode.PLAY)%string then ret "SendPlay"
     else if (mode =? SendMode.EVENT)%string then ret "SendEvent"
     else raise (ValueError ("unknown send mode: " ++ str_repr mode)%string)) ;;
  _send_level level ;;
  ahk_call cmd [VStr keys] ;;
  ret tt.

(** What the host runs when it invokes a callable of [remap_key]:
    [send(keys)] with the defaults [mode=SendMode.INPUT], [level=0]. *)
Definition run_send_closure (keys : string) : io unit :=
  send keys SendMode.INPUT 0.

End Keys.

Section KeysMore.
Context `{AhkHost} `{Runtime}.

(** [isinstance(x, str) and p(x)] *)
Definition str_and (p : string -> bool) (x : value) : bool :=
  match x with VStr s => p s | _ => false end.

(** keys.py:71-80.  [state] is any object; only whether it is a [str] and
    its truth are looked at, so a [bool] may be given as the int 1 or 0. *)
Definition _set_key_state (cmd : string) (state : value) : io unit :=
  let state :=
    if str_and (fun s => str_in (lower s) ["always_on"; "alwayson"]) state
    then "AlwaysOn"
    else if str_and (fun s => str_in (lower s) ["always_off"; "alwaysoff"]) state
    then "AlwaysOff"
    else if value_truth state then "On"
    else "Off" in
  ahk_call cmd [VStr state] ;; ret tt.

(* keys.py:59-68 *)
Definition set_caps_lock_state (state : value) : io unit :=
  _set_key_state "SetCapsLockState" state.

Definition set_num_lock_state (state : value) : io unit :=
  _set_key_state "SetNumLockState" state.

Definition set_scroll_lock_state (state : value) : io unit :=
  _set_key_state "SetScrollLockState" state.

(* keys.py:390-391 *)
Definition reset_hotstring : io unit :=
  ahk_call "Hotstring" [VStr "Reset"] ;; ret tt.

(* keys.py:405-414; [key_name] is a [str], which [str(...)] returns. *)
Definition key_wait_options (down logical_state : bool)
    (timeout : option number) : list string :=
  let options := [] in
  let options := if down then options ++ ["D"] else options in
  let options := if logical_state then options ++ ["L"] else options in
  let options :=
    match timeout with
    | Some timeout => options ++ [("T" ++ format_number timeout)%string]
    | None => options
    end in
  options.

Definition _key_wait (key_name : string) (down logical_state : bool)
    (timeout : option number) : io bool :=
  let options := key_wait_options down logical_state timeout in
  timed_out <- ahk_call "KeyWait" [VStr key_name; VStr (String.concat "" options)] ;;
  ret (negb (value_truth timed_out)).

(* keys.py:397-402 *)
Definition key_wait_pressed (key_name : string) (logical_state : bool)
    (timeout : option number) : io bool :=
  _key_wait key_name true logical_state timeout.

Definition key_wait_released (key_name : string) (logical_state : bool)
    (timeout : option number) : io bool :=
  _key_wait key_name false logical_state timeout.

End KeysMore.

(* ===================================================================== *)
(** * ahkpy/menu.py *)
(* ===================================================================== *)

Module Menu.

Record t : Type := Menu_raw { name : string }.

(** menu.py:20-23, for a name that is given. *)
Definition Menu (name : string) : t := Menu_raw (lower name).

(** menu.py:233-236.  An item is named by a position (an [int], counted
    from 0) or by its text (a [str]); [isinstance(name, int)] holds of
    the [int]s. *)
Definition _item_name (name : value) : value :=
  match name with
  | VInt n => VStr (str_of_int (n + 1) ++ "&")%string
  | _ => name
  end.

Definition opt_int (o : option Z) : value :=
  match o with Some z => VInt z | None => VNone end.

(** The keyword options shared by [add], [insert], [update] and
    [_insert_or_update]. *)
Record item_kwargs : Type := Kwargs {
  priority : option Z;
  default : bool;
  enabled : option bool;
  checked : option bool;
  radio : option bool;
  right : option bool;
  new_column : option bool;
  bar_column : option bool;
  icon : value;
  icon_number : option Z;
  icon_width : option Z
}.

(** The defaults of [add] and [insert] (menu.py:30-32, 59-61), of
    [_insert_or_update] (menu.py:109-111) and of [update]
    (menu.py:94-96). *)
Definition add_defaults : item_kwargs :=
  Kwargs (Some 0) false (Some true) (Some false)
    (Some false) (Some false) (Some false) (Some false) VNone None None.

Definition insert_or_update_defaults : item_kwargs :=
  Kwargs None false (Some true) (Some false)
    None None None None VNone None None.

Definition update_defaults : item_kwargs :=
  Kwargs None false None None None None None None VNone None None.

(** [add_submenu] and [insert_submenu] hand on no [priority], [update]
    hands on no [default]: the callee's defaults apply. *)
Definition without_priority (kw : item_kwargs) : item_kwargs :=
  Kwargs None (default kw) (enabled kw) (checked kw) (radio kw) (right kw)
    (new_column kw) (bar_column kw) (icon kw) (icon_number kw) (icon_width kw).

Definition without_default (kw : item_kwargs) : item_kwargs :=
  Kwargs (priority kw) false (enabled kw) (checked kw) (radio kw) (right kw)
    (new_column kw) (bar_column kw) (icon kw) (icon_number kw) (icon_width kw).

(** [f"{'+' if flag else '-'}Word"], appended when the flag is given. *)
Definition sign_option (word : string) (flag : option bool) : list string :=
  match flag with
  | Some b => [((if b then "+" else "-") ++ word)%string]
  | None => []
  end.

(* menu.py:123-134 *)
Definition option_str (kw : item_kwargs) : string :=
  let option_list := [] in
  let option_list :=
    match priority kw with
    | Some p => option_list ++ [("P" ++ str_of_int p)%string]
    | None => option_list
    end in
  let option_list := option_list ++ sign_option "Radio" (radio kw) in
  let option_list := option_list ++ sign_option "Right" (right kw) in
  let option_list := option_list ++ sign_option "Break" (new_column kw) in
  let option_list := option_list ++ sign_option "BarBreak" (bar_column kw) in
  String.concat " " option_list.

Section Menu.
Context `{AhkHost} `{Runtime}.

(* menu.py:238-240 *)
Definition _call (self : t) (args : list value) : io value :=
  ahk_call "Menu" (VStr (name self) :: args).

(* menu.py:168-170 *)
Definition delete_item (self : t) (item_name : value) : io unit :=
  let item_name := _item_name item_name in
  _call self [VStr "Delete"; item_name] ;; ret tt.

(* menu.py:178-181 *)
Definition rename (self : t) (item_name new_name : value) : io unit :=
  let item_name :=
    if not_None item_name then _item_name item_name else item_name in
  _call self [VStr "Rename"; item_name; new_name] ;; ret tt.

(** menu.py:183-209 and 222-224: the methods that translate the item and
    send one directive. *)
Definition item_directive (directive : string) (self : t)
    (item_name : value) : io unit :=
  let item_name := _item_name item_name in
  _call self [VStr directive; item_name] ;; ret tt.

Definition check := item_directive "Check".
Definition uncheck := item_directive "Uncheck".
Definition toggle_check := item_directive "ToggleCheck".
Definition enable := item_directive "Enable".
Definition disable := item_directive "Disable".
Definition toggle_enable := item_directive "ToggleEnable".
Definition set_default := item_directive "Default".
Definition remove_icon := item_directive "NoIcon".

(* menu.py:217-220 *)
Definition set_icon (self : t) (item_name filename : value)
    (number width : option Z) : io unit :=
  let item_name := _item_name item_name in
  let number :=
    match number with
    | Some n => if n =? 0 then 0 else n
    | None => 0
    end in
  _call self [VStr "Icon"; item_name; filename; VInt (number + 1);
              opt_int width] ;;
  ret tt.

Definition when (b : bool) (m : io unit) : io unit :=
  if b then m else ret tt.

Definition is_UNSET (v : value) : bool :=
  match v with VUnset => true | _ => false end.

(** menu.py:106-166.  The result is [self] on the insert path and [None]
    on the update path. *)
Definition _insert_or_update (self : t) (item_name new_name : value)
    (callback : option callable) (submenu : option t)
    (update : bool) (kw : item_kwargs) : io (option t) :=
  let item_name := _item_name item_name in
  let thing :=
    match submenu, callback with
    | Some submenu, _ => VStr (":" ++ name submenu)%string
    | None, Some callback => VFunc callback
    | None, None => VNone
    end in
  let option_str := option_str kw in
  if update then
    when (negb (is_UNSET new_name)) (rename self item_name new_name) ;;
    when (str_truth option_str)
      (_call self [VStr "Add"; item_name; VStr ""; VStr option_str] ;; ret tt) ;;
    when (not_None thing)
      (_call self [VStr "Add"; item_name; thing] ;; ret tt) ;;
    (if truth (enabled kw) then enable self item_name
     else if given (enabled kw) then disable self item_name
     else ret tt) ;;
    (if truth (checked kw) then check self item_name
     else if given (checked kw) then uncheck self item_name
     else ret tt) ;;
    when (value_truth (icon kw))
      (set_icon self item_name (icon kw) (icon_number kw) (icon_width kw)) ;;
    ret None
  else
    _call self [VStr "Insert"; item_name; new_name; thing; VStr option_str] ;;
    when (value_truth new_name)
      (when (default kw) (set_default self new_name) ;;
       when (negb (truth (enabled kw))) (disable self new_name) ;;
       when (truth (checked kw)) (check self new_name) ;;
       when (value_truth (icon kw))
         (set_icon self new_name (icon kw) (icon_number kw) (icon_width kw))) ;;
    ret (Some self).

(* menu.py:28-39 *)
Definition add (self : t) (item_name : value) (callback : option callable)
    (kw : item_kwargs) : io (option t) :=
  _insert_or_update self VNone item_name callback None false kw.

(* menu.py:41-42 *)
Definition add_separator (self : t) : io (option t) :=
  _insert_or_update self VNone VNone None None false insert_or_update_defaults.

(* menu.py:44-55 *)
Definition add_submenu (self : t) (item_name : value) (submenu : option t)
    (kw : item_kwargs) : io (option t) :=
  _insert_or_update self VNone item_name None submenu false (without_priority kw).

(* menu.py:57-70 *)
Definition insert (self : t) (insert_before item_name : value)
    (callback : option callable) (kw : item_kwargs) : io (option t) :=
  if negb (not_None insert_before) then
    raise (TypeError "insert_before must not be None")
  else _insert_or_update self insert_before item_name callback None false kw.

(* menu.py:72-75 *)
Definition insert_separator (self : t) (insert_before : value) : io (option t) :=
  if negb (not_None insert_before) then
    raise (TypeError "insert_before must not be None")
  else
    _insert_or_update self insert_before VNone None None false
      insert_or_update_defaults.

(* menu.py:77-90 *)
Definition insert_submenu (self : t) (insert_before item_name : value)
    (submenu : option t) (kw : item_kwargs) : io (option t) :=
  if negb (not_None insert_before) then
    raise (TypeError "insert_before must not be None")
  else
    _insert_or_update self insert_before item_name None submenu false
      (without_priority kw).

(* menu.py:92-104 *)
Definition update (self : t) (item_name new_name : value)
    (callback : option callable) (submenu : option t) (kw : item_kwargs)
    : io unit :=
  _insert_or_update self item_name new_name callback submenu true
    (without_default kw) ;;
  ret tt.

(* menu.py:25-26 *)
Definition get_handle (self : t) : io value :=
  ahk_call "MenuGetHandle" [VStr (name self)].

(* menu.py:172-176 *)
Definition delete_all_items (self : t) : io unit :=
  _call self [VStr "DeleteAll"] ;; ret tt.

Definition delete_menu (self : t) : io unit :=
  _call self [VStr "Delete"] ;; ret tt.

(* menu.py:211-215 *)
Definition remove_default (self : t) : io unit :=
  _call self [VStr "NoDefault"] ;; ret tt.

Definition _remove_standard (self : t) : io unit :=
  _call self [VStr "NoStandard"] ;; ret tt.

(* menu.py:226-231 *)
Definition show (self : t) : io unit :=
  _call self [VStr "Show"] ;; ret tt.

Definition set_color (self : t) (color : value) : io unit :=
  _call self [VStr "Color"; color] ;; ret tt.

(** menu.py:243-262, [TrayMenu]: a [Menu] whose name is ["tray"]. *)
Definition TrayMenu : t := Menu "tray".

(** [freeze] is accepted and not used. *)
Definition set_tray_icon (self : t) (filename : value) (freeze : bool) : io unit :=
  _call self [VStr "Icon"; filename] ;; ret tt.

Definition remove_tray_icon (self : t) : io unit :=
  _call self [VStr "NoIcon"] ;; ret tt.

Definition set_tip (self : t) (text : value) : io unit :=
  _call self [VStr "Tip"; text] ;; ret tt.

Definition set_click (self : t) (number : value) : io unit :=
  _call self [VStr "Click"; number] ;; ret tt.

Definition tray_menu : t := TrayMenu.

End Menu.
End Menu.

(* ===================================================================== *)
(** * The vocabulary of the properties *)
(* ===================================================================== *)

(** The tokens of one kind among the options of a hotstring, in the order
    in which they were appended. *)
Definition portion (kind : string -> bool) (options : list string) : list string :=
  filter kind options.

Definition end_char_token (t : string) : bool := str_in t ["*"; "*0"; "O"; "O0"].
Definition case_token (t : string) : bool := str_in t ["C"; "C0"; "C1"].
Definition send_mode_token (t : string) : bool := str_in t ["SI"; "SP"; "SE"].
Definition key_delay_token (t : string) : bool :=
  match t with
  | String c _ => Ascii.eqb c "K"
  | EmptyString => false
  end.

(** The calls of a [with context._manager():] block whose body makes the
    calls [body]. *)
Definition in_context (ctx : BaseHotkeyContext) (body : list call) : list call :=
  match ctx with
  | default_context => body
  | HotkeyContext predicate =>
      [Call "HotkeyContext" [VFunc predicate]] ++ body ++
      [Call "HotkeyExitContext" []]
  end.

(** The directive by which [Hotstring.update] registers its options. *)
Definition hotstring_directive (self : Hotstring.t) (options : list string)
    (replacement : option Hotstring.replacement_t) : call :=
  Call "Hotstring"
    [VStr (":" ++ String.concat "" options ++ ":" ++ Hotstring.string self)%string;
     Hotstring.replacement_or_empty replacement].

(** [update(..., conform_to_case=c, ...)] and [update(..., mode=m, ...)],
    the other arguments as in [a]. *)
Definition with_conform_to_case (c : option bool) (a : Hotstring.update_args)
    : Hotstring.update_args :=
  Hotstring.Args (Hotstring.replacement a) c (Hotstring.wait_for_end_char a)
    (Hotstring.omit_end_char a) (Hotstring.backspacing a) (Hotstring.priority a)
    (Hotstring.text a) (Hotstring.mode a) (Hotstring.key_delay a)
    (Hotstring.reset_recognizer a).

Definition with_mode (m : option string) (a : Hotstring.update_args)
    : Hotstring.update_args :=
  Hotstring.Args (Hotstring.replacement a) (Hotstring.conform_to_case a)
    (Hotstring.wait_for_end_char a) (Hotstring.omit_end_char a)
    (Hotstring.backspacing a) (Hotstring.priority a) (Hotstring.text a) m
    (Hotstring.key_delay a) (Hotstring.reset_recognizer a).

Definition with_omit_end_char (o : option bool) (a : Hotstring.update_args)
    : Hotstring.update_args :=
  Hotstring.Args (Hotstring.replacement a) (Hotstring.conform_to_case a)
    (Hotstring.wait_for_end_char a) o
    (Hotstring.backspacing a) (Hotstring.priority a) (Hotstring.text a)
    (Hotstring.mode a) (Hotstring.key_delay a) (Hotstring.reset_recognizer a).

(** Two characters that are the same letter in either case (A-Z, a-z), or
    the same character. *)
Definition is_ascii_upper (c : ascii) : bool :=
  let n := N_of_ascii c in ((65 <=? n) && (n <=? 90))%N.

Definition same_letter (c d : ascii) : Prop :=
  c = d \/
  (is_ascii_upper c = true /\ d = ascii_of_N (N_of_ascii c + 32)) \/
  (is_ascii_upper d = true /\ c = ascii_of_N (N_of_ascii d + 32)).

(** [s] is [t] in some letter casing. *)
Inductive casing_of : string -> string -> Prop :=
| casing_nil : casing_of "" ""
| casing_cons c d s t :
    same_letter c d -> casing_of s t -> casing_of (String c s) (String d t).

(** A runtime and a host on which the model can be run: floats print as
    a fixed mark, strings are quoted without escapes, every context hashes
    to 0, [UNSET] is false, and the host answers every call with 1. *)
Definition sample_runtime : Runtime :=
  {| float_repr := fun _ => "<float>";
     str_repr := fun s => ("'" ++ s ++ "'")%string;
     hash_context := fun _ => 0;
     UNSET_truth := false |}.

Definition sample_host : AhkHost := {| ahk_reply := fun _ _ => VInt 1 |}.

(** The operations of a menu that say which item they mean, with their
    other arguments. *)
Inductive item_op : Type :=
| op_delete_item
| op_rename (new_name : value)
| op_check
| op_uncheck
| op_toggle_check
| op_enable
| op_disable
| op_toggle_enable
| op_set_default
| op_set_icon (filename : value) (number width : option Z)
| op_remove_icon
| op_update (new_name : value) (callback : option callable)
    (submenu : option Menu.t) (kw : Menu.item_kwargs)
| op_insert (item_name : value) (callback : option callable)
    (kw : Menu.item_kwargs)
| op_insert_separator
| op_insert_submenu (item_name : value) (submenu : option Menu.t)
    (kw : Menu.item_kwargs).

Definition is_insert (op : item_op) : bool :=
  match op with
  | op_insert _ _ _ | op_insert_separator | op_insert_submenu _ _ _ => true
  | _ => false
  end.

Definition run_item_op `{AhkHost} `{Runtime}
    (self : Menu.t) (op : item_op) (item : value) : io unit :=
  match op with
  | op_delete_item => Menu.delete_item self item
  | op_rename new_name => Menu.rename self item new_name
  | op_check => Menu.check self item
  | op_uncheck => Menu.uncheck self item
  | op_toggle_check => Menu.toggle_check self item
  | op_enable => Menu.enable self item
  | op_disable => Menu.disable self item
  | op_toggle_enable => Menu.toggle_enable self item
  | op_set_default => Menu.set_default self item
  | op_set_icon filename number width =>
      Menu.set_icon self item filename number width
  | op_remove_icon => Menu.remove_icon self item
  | op_update new_name callback submenu kw =>
      Menu.update self item new_name callback submenu kw
  | op_insert item_name callback kw =>
      Menu.insert self item item_name callback kw ;; ret tt
  | op_insert_separator => Menu.insert_separator self item ;; ret tt
  | op_insert_submenu item_name submenu kw =>
      Menu.insert_submenu self item item_name submenu kw ;; ret tt
  end.

(** The operations that send one directive, with the sub-command and the
    arguments that follow the item. *)
Definition directive_of (op : item_op) : option (string * list value) :=
  match op with
  | op_delete_item => Some ("Delete", [])
  | op_rename new_name => Some ("Rename", [new_name])
  | op_check => Some ("Check", [])
  | op_uncheck => Some ("Uncheck", [])
  | op_toggle_check => Some ("ToggleCheck", [])
  | op_enable => Some ("Enable", [])
  | op_disable => Some ("Disable", [])
  | op_toggle_enable => Some ("ToggleEnable", [])
  | op_set_default => Some ("Default", [])
  | op_remove_icon => Some ("NoIcon", [])
  | _ => None
  end.

(** The item a [Menu] directive is about: the argument after the menu's
    name and the sub-command. *)
Definition item_arg (c : call) : option value := nth_error (args c) 2.

(** Every call a computation makes satisfies [P]; the calls made before it
    stay as they are. *)
Definition only_calls {A : Type} (P : call -> Prop) (m : io A) : Prop :=
  forall h, exists new, snd (m h) = h ++ new /\ Forall P new.

(** The record of calls keeps contexts apart: [HotkeyContext] is only
    called outside a context, [HotkeyExitContext] only inside one, and at
    the end no context is left open. *)
Fixpoint bracketed_from (inside : bool) (calls : list call) : bool :=
  match calls with
  | [] => negb inside
  | c :: rest =>
      if (cmd c =? "HotkeyContext")%string
      then negb inside && bracketed_from true rest
      else if (cmd c =? "HotkeyExitContext")%string
      then inside && bracketed_from false rest
      else bracketed_from inside rest
  end.

Definition bracketed (calls : list call) : bool := bracketed_from false calls.

(** The operations of keys.py that work inside a context. *)
Inductive key_op : Type :=
| op_hotkey_enable (hk : Hotkey.t)
| op_hotkey_disable (hk : Hotkey.t)
| op_hotkey_toggle (hk : Hotkey.t)
| op_hotkey_update (hk : Hotkey.t) (func : option callable)
    (buffer : option bool) (priority max_threads input_level : option Z)
| op_hotstring_enable (hs : Hotstring.t)
| op_hotstring_disable (hs : Hotstring.t)
| op_hotstring_toggle (hs : Hotstring.t)
| op_hotstring_update (hs : Hotstring.t) (a : Hotstring.update_args)
| op_hotkey (ctx : BaseHotkeyContext) (key_name : string) (func : callable)
    (kw : hotkey_kwargs)
| op_hotstring (ctx : BaseHotkeyContext) (trigger : string)
    (replacement : option Hotstring.replacement_t)
    (case_sensitive replace_inside_word : bool) (kw : Hotstring.update_args)
| op_hotstring_decorator (ctx : BaseHotkeyContext) (trigger : string)
    (case_sensitive replace_inside_word : bool) (kw : Hotstring.update_args)
    (replacement : option Hotstring.replacement_t)
| op_remap_key (origin_key destination_key : string)
| op_remapped_enable (rk : RemappedKey.t)
| op_remapped_disable (rk : RemappedKey.t)
| op_remapped_toggle (rk : RemappedKey.t).

Definition run_key_op `{AhkHost} `{Runtime} (op : key_op) : io unit :=
  match op with
  | op_hotkey_enable hk => Hotkey.enable hk
  | op_hotkey_disable hk => Hotkey.disable hk
  | op_hotkey_toggle hk => Hotkey.toggle hk
  | op_hotkey_update hk func buffer priority max_threads input_level =>
      Hotkey.update hk func buffer priority max_threads input_level
  | op_hotstring_enable hs => Hotstring.enable hs
  | op_hotstring_disable hs => Hotstring.disable hs
  | op_hotstring_toggle hs => Hotstring.toggle hs
  | op_hotstring_update hs a => Hotstring.update hs a
  | op_hotkey ctx key_name func kw =>
      BaseHotkeyContext_hotkey ctx key_name func kw ;; ret tt
  | op_hotstring ctx trigger replacement case_sensitive replace_inside_word kw =>
      BaseHotkeyContext_hotstring ctx trigger replacement case_sensitive
        replace_inside_word kw ;; ret tt
  | op_hotstring_decorator ctx trigger case_sensitive replace_inside_word kw
      replacement =>
      hotstring_decorator ctx trigger case_sensitive replace_inside_word kw
        replacement ;; ret tt
  | op_remap_key origin_key destination_key =>
      remap_key origin_key destination_key ;; ret tt
  | op_remapped_enable rk => RemappedKey.enable rk
  | op_remapped_disable rk => RemappedKey.disable rk
  | op_remapped_toggle rk => RemappedKey.toggle rk
  end.

(** A computation that adds calls whose record is [bracketed]. *)
Definition keeps_contexts_apart {A : Type} (m : io A) : Prop :=
  forall h, exists new, snd (m h) = h ++ new /\ bracketed new = true.

(** A strictly increasing list of numbers. *)
Fixpoint increasing (l : list nat) : bool :=
  match l with
  | a :: (b :: _) as rest => (a <? b)%nat && increasing rest
  | _ => true
  end.

(** The kinds of hotstring option tokens, numbered in the order in which
    the host is to read them; a token is known by its first character. *)
Definition option_rank (t : string) : nat :=
  match t with
  | String c _ =>
      if Ascii.eqb c "C" then 0
      else if Ascii.eqb c "?" then 1
      else if Ascii.eqb c "*" then 2
      else if Ascii.eqb c "O" then 3
      else if Ascii.eqb c "B" then 4
      else if Ascii.eqb c "K" then 5
      else if Ascii.eqb c "P" then 6
      else if Ascii.eqb c "T" then 7
      else if Ascii.eqb c "S" then 8
      else if Ascii.eqb c "Z" then 9
      else 10
  | EmptyString => 10
  end%nat.

(** The tokens of [l] are in increasing order of kind, all kinds from
    [lo] up to and without [hi]. *)
Definition fits (lo hi : nat) (l : list string) : Prop :=
  (lo <= hi)%nat /\
  increasing (map option_rank l) = true /\
  Forall (fun t => (lo <= option_rank t < hi)%nat) l.

(** Every operation of a menu: those that take an item, with the item,
    and the others. *)
Inductive menu_op : Type :=
| op_item (op : item_op) (item : value)
| op_add (item_name : value) (callback : option callable)
    (kw : Menu.item_kwargs)
| op_add_separator
| op_add_submenu (item_name : value) (submenu : option Menu.t)
    (kw : Menu.item_kwargs)
| op_delete_all_items
| op_delete_menu
| op_remove_default
| op_remove_standard
| op_show
| op_set_color (color : value)
| op_set_tray_icon (filename : value) (freeze : bool)
| op_remove_tray_icon
| op_set_tip (text : value)
| op_set_click (number : value).

Definition run_menu_op `{AhkHost} `{Runtime}
    (self : Menu.t) (op : menu_op) : io unit :=
  match op with
  | op_item op item => run_item_op self op item
  | op_add item_name callback kw =>
      Menu.add self item_name callback kw ;; ret tt
  | op_add_separator => Menu.add_separator self ;; ret tt
  | op_add_submenu item_name submenu kw =>
      Menu.add_submenu self item_name submenu kw ;; ret tt
  | op_delete_all_items => Menu.delete_all_items self
  | op_delete_menu => Menu.delete_menu self
  | op_remove_default => Menu.remove_default self
  | op_remove_standard => Menu._remove_standard self
  | op_show => Menu.show self
  | op_set_color color => Menu.set_color self color
  | op_set_tray_icon filename freeze => Menu.set_tray_icon self filename freeze
  | op_remove_tray_icon => Menu.remove_tray_icon self
  | op_set_tip text => Menu.set_tip self text
  | op_set_click number => Menu.set_click self number
  end.

(** The sub-command of a [Menu] directive, and the place of a directive
    in the order of the steps of [Menu.update]: rename, options, callback
    or submenu, enabling, checking, icon. *)
Definition subcommand (c : call) : string :=
  match args c with
  | _ :: VStr d :: _ => d
  | _ => ""
  end.

Definition update_rank (c : call) : nat :=
  let d := subcommand c in
  if (d =? "Rename")%string then 0%nat
  else if (d =? "Add")%string then
    (if (List.length (args c) =? 5)%nat then 1%nat else 2%nat)
  else if ((d =? "Enable") || (d =? "Disable"))%string then 3%nat
  else if ((d =? "Check") || (d =? "Uncheck"))%string then 4%nat
  else if (d =? "Icon")%string then 5%nat
  else 6%nat.

(** The directives of [Menu.update] for an item as the host is to see
    it, in the order of the steps: rename, set options, set thing, set
    enabled, set checked, set icon; a step whose argument asks for nothing
    sends nothing. *)
Definition update_steps `{Runtime} (self : Menu.t) (item new_name : value)
    (callback : option callable) (submenu : option Menu.t)
    (kw : Menu.item_kwargs) : list call :=
  let directive d extra :=
    Call "Menu" (VStr (Menu.name self) :: VStr d :: item :: extra) in
  (if Menu.is_UNSET new_name then [] else [directive "Rename" [new_name]]) ++
  (if str_truth (Menu.option_str kw)
   then [directive "Add" [VStr ""; VStr (Menu.option_str kw)]] else []) ++
  match submenu, callback with
  | Some submenu, _ => [directive "Add" [VStr (":" ++ Menu.name submenu)%string]]
  | None, Some callback => [directive "Add" [VFunc callback]]
  | None, None => []
  end ++
  match Menu.enabled kw with
  | Some true => [directive "Enable" []]
  | Some false => [directive "Disable" []]
  | None => []
  end ++
  match Menu.checked kw with
  | Some true => [directive "Check" []]
  | Some false => [directive "Uncheck" []]
  | None => []
  end ++
  (if value_truth (Menu.icon kw)
   then [directive "Icon"
           [Menu.icon kw;
            VInt (match Menu.icon_number kw with Some n => n | None => 0 end + 1);
            Menu.opt_int (Menu.icon_width kw)]]
   else []).

(** [int(s)] for the decimal text of an [int]. *)
Definition int_of_str (s : string) : option Z :=
  option_map Z.of_int (NilZero.int_of_string s).

(** The characters of the decimal text of an [int], and strings made of
    them; [stops r] says that such a text cannot go on into [r]. *)
Definition digit_char (c : ascii) : bool :=
  let n := N_of_ascii c in ((n =? 45) || ((48 <=? n) && (n <=? 57)))%N.

Fixpoint all_digits (s : string) : bool :=
  match s with
  | EmptyString => true
  | String c rest => digit_char c && all_digits rest
  end.

Definition stops (r : string) : bool :=
  match r with
  | EmptyString => true
  | String c _ => negb (digit_char c)
  end.

(* ===================================================================== *)
(** * Case folding *)
(* ===================================================================== *)

Lemma lower_char_idempotent (c : ascii) : lower_char (lower_char c) = lower_char c.
Proof.
  destruct c as [b0 b1 b2 b3 b4 b5 b6 b7].
  destruct b0, b1, b2, b3, b4, b5, b6, b7; reflexivity.
Qed.

Lemma lower_idempotent (s : string) : lower (lower s) = lower s.
Proof.
  induction s as [| c s IH]; simpl.
  - reflexivity.
  - rewrite lower_char_idempotent, IH. reflexivity.
Qed.

Lemma lower_char_of_upper (c : ascii) :
  is_ascii_upper c = true ->
  lower_char (ascii_of_N (N_of_ascii c + 32)) = lower_char c.
Proof.
  destruct c as [b0 b1 b2 b3 b4 b5 b6 b7].
  destruct b0, b1, b2, b3, b4, b5, b6, b7; intros E;
    solve [reflexivity | discriminate E].
Qed.

Lemma same_letter_lower (c d : ascii) :
  same_letter c d -> lower_char c = lower_char d.
Proof.
  intros [E | [[U E] | [U E]]]; subst.
  - reflexivity.
  - symmetry. apply lower_char_of_upper. exact U.
  - apply lower_char_of_upper. exact U.
Qed.

Lemma casing_of_lower (s t : string) : casing_of s t -> lower s = lower t.
Proof.
  induction 1 as [| c d s t L _ IH]; simpl.
  - reflexivity.
  - rewrite (same_letter_lower c d L), IH. reflexivity.
Qed.

Lemma str_in_In (x : string) (l : list string) : str_in x l = true <-> In x l.
Proof.
  unfold str_in. rewrite existsb_exists. split.
  - intros [y [I E]]. apply String.eqb_eq in E. subst. exact I.
  - intros I. exists x. split; [exact I | apply String.eqb_refl].
Qed.

Lemma str_in_not_In (x : string) (l : list string) : str_in x l = false <-> ~ In x l.
Proof.
  rewrite <- str_in_In. destruct (str_in x l); split; intros; congruence.
Qed.

(* ===================================================================== *)
(** * Hotstring options, block by block *)
(* ===================================================================== *)

Section HotstringBlocks.
Context `{Runtime}.

Variable kind : string -> bool.

Lemma portion_app (l1 l2 : list string) :
  portion kind (l1 ++ l2) = portion kind l1 ++ portion kind l2.
Proof. apply filter_app. Qed.

Lemma portion_case_options self c :
  kind "C" = false -> kind "C0" = false -> kind "C1" = false ->
  portion kind (Hotstring.case_options self c) = [].
Proof.
  intros K K0 K1. unfold Hotstring.case_options.
  destruct (Hotstring.case_sensitive self), c as [[|]|]; simpl;
    rewrite ?K, ?K0, ?K1; reflexivity.
Qed.

Lemma portion_inside_options self :
  kind "?" = false -> kind "?0" = false ->
  portion kind (Hotstring.inside_options self) = [].
Proof.
  intros K K0. unfold Hotstring.inside_options.
  destruct (Hotstring.replace_inside_word self); simpl;
    rewrite ?K, ?K0; reflexivity.
Qed.

Lemma portion_end_char_options w o :
  kind "*" = false -> kind "*0" = false ->
  kind "O" = false -> kind "O0" = false ->
  portion kind (Hotstring.end_char_options w o) = [].
Proof.
  intros K1 K2 K3 K4. unfold Hotstring.end_char_options.
  destruct w as [[|]|], o as [[|]|]; simpl;
    rewrite ?K1, ?K2, ?K3, ?K4; reflexivity.
Qed.

Lemma portion_flag_options on off flag :
  kind on = false -> kind off = false ->
  portion kind (Hotstring.flag_options on off flag) = [].
Proof.
  intros K1 K2. unfold Hotstring.flag_options.
  destruct flag as [[|]|]; simpl; rewrite ?K1, ?K2; reflexivity.
Qed.

Lemma portion_key_delay_options d k :
  (forall s, kind (String "K" s) = false) ->
  Hotstring.key_delay_options d = Returns k ->
  portion kind k = [].
Proof.
  intros K. unfold Hotstring.key_delay_options.
  destruct d as [d|]; [| intros [= <-]; reflexivity].
  destruct (gt0 d); [destruct (to_int (times1000 d)) |]; simpl;
    intros [= <-]; simpl; rewrite K; reflexivity.
Qed.

Lemma portion_priority_options p :
  (forall s, kind (String "P" s) = false) ->
  portion kind (Hotstring.priority_options p) = [].
Proof.
  intros K. destruct p; simpl; rewrite ?K; reflexivity.
Qed.

Lemma portion_mode_options m :
  kind "SI" = false -> kind "SP" = false -> kind "SE" = false ->
  portion kind (Hotstring.mode_options m) = [].
Proof.
  intros K1 K2 K3. unfold Hotstring.mode_options.
  destruct m as [m|]; simpl; [| reflexivity].
  destruct (lower m =? SendMode.INPUT)%string; simpl; rewrite ?K1; trivial.
  destruct (lower m =? SendMode.PLAY)%string; simpl; rewrite ?K2; trivial.
  destruct (lower m =? SendMode.EVENT)%string; simpl; rewrite ?K3; trivial.
Qed.

(** The list that [update] builds is the blocks of the method in their
    order, when [int(...)] in the key-delay block does not raise. *)
Lemma update_options_blocks self a :
  Hotstring.update_options self a =
  outcome_map
    (fun k =>
       Hotstring.case_options self (Hotstring.conform_to_case a) ++
       Hotstring.inside_options self ++
       Hotstring.end_char_options (Hotstring.wait_for_end_char a)
         (Hotstring.omit_end_char a) ++
       Hotstring.flag_options "B" "B0" (Hotstring.backspacing a) ++
       k ++
       Hotstring.priority_options (Hotstring.priority a) ++
       Hotstring.flag_options "T" "T0" (Hotstring.text a) ++
       Hotstring.mode_options (Hotstring.mode a) ++
       Hotstring.flag_options "Z" "Z0" (Hotstring.reset_recognizer a))
    (Hotstring.key_delay_options (Hotstring.key_delay a)).
Proof.
  unfold Hotstring.update_options.
  destruct (Hotstring.key_delay_options (Hotstring.key_delay a)); simpl.
  - rewrite <- !app_assoc. reflexivity.
  - reflexivity.
Qed.

Lemma portion_update_options self a options :
  Hotstring.update_options self a = Returns options ->
  exists k,
    Hotstring.key_delay_options (Hotstring.key_delay a) = Returns k /\
    portion kind options =
      portion kind (Hotstring.case_options self (Hotstring.conform_to_case a)) ++
      portion kind (Hotstring.inside_options self) ++
      portion kind (Hotstring.end_char_options (Hotstring.wait_for_end_char a)
                      (Hotstring.omit_end_char a)) ++
      portion kind (Hotstring.flag_options "B" "B0" (Hotstring.backspacing a)) ++
      portion kind k ++
      portion kind (Hotstring.priority_options (Hotstring.priority a)) ++
      portion kind (Hotstring.flag_options "T" "T0" (Hotstring.text a)) ++
      portion kind (Hotstring.mode_options (Hotstring.mode a)) ++
      portion kind (Hotstring.flag_options "Z" "Z0" (Hotstring.reset_recognizer a)).
Proof.
  rewrite update_options_blocks.
  destruct (Hotstring.key_delay_options (Hotstring.key_delay a)) as [k|e];
    simpl; intros [= <-].
  exists k. split; [reflexivity |].
  rewrite !portion_app. reflexivity.
Qed.

End HotstringBlocks.

Section HotstringRun.
Context `{AhkHost} `{Runtime}.

(** A [with context._manager():] block around one call. *)
Lemma manager_one_call ctx cmd args h :
  exists v,
    BaseContext._manager ctx (ahk_call cmd args) h =
    (Returns v, h ++ in_context ctx [Call cmd args]).
Proof.
  destruct ctx; unfold BaseContext._manager, bind, ahk_call, ret; simpl.
  - eexists. reflexivity.
  - eexists. rewrite <- !app_assoc. reflexivity.
Qed.

(** [Hotstring.update] makes no call when its options cannot be built,
    and otherwise one [Hotstring] directive inside the context. *)
Lemma update_run self a h :
  Hotstring.update self a h =
  match Hotstring.update_options self a with
  | Returns options =>
      (Returns tt,
       h ++ in_context (Hotstring.context self)
              [hotstring_directive self options (Hotstring.replacement a)])
  | Raises e => (Raises e, h)
  end.
Proof.
  unfold Hotstring.update, bind, lift.
  destruct (Hotstring.update_options self a) as [options|e]; [| reflexivity].
  destruct (manager_one_call (Hotstring.context self) "Hotstring"
              [VStr (":" ++ String.concat "" options ++ ":" ++
                     Hotstring.string self)%string;
               Hotstring.replacement_or_empty (Hotstring.replacement a)] h)
    as [v E].
  rewrite E. reflexivity.
Qed.

(** C1.  When [update] is called with [wait_for_end_char=False], the
    end-char block appends the one token [*] whatever [omit_end_char] is
    ([True], [False] or [None]); among the options that [update] builds
    the tokens [*], [*0], [O], [O0] occur as exactly that one [*]; the
    directive sent to the host carries these options, and the call is the
    same for every value of [omit_end_char]. *)
Theorem update_no_wait_emits_star self a options h :
  Hotstring.wait_for_end_char a = Some false ->
  Hotstring.update_options self a = Returns options ->
  Hotstring.end_char_options (Hotstring.wait_for_end_char a)
    (Hotstring.omit_end_char a) = ["*"] /\
  portion end_char_token options = ["*"] /\
  Hotstring.update self a h =
    (Returns tt,
     h ++ in_context (Hotstring.context self)
            [hotstring_directive self options (Hotstring.replacement a)]) /\
  forall o, Hotstring.update self (with_omit_end_char o a) h =
            Hotstring.update self a h.
Proof.
  intros W E.
  assert (B : Hotstring.end_char_options (Hotstring.wait_for_end_char a)
                (Hotstring.omit_end_char a) = ["*"]).
  { rewrite W. reflexivity. }
  split; [exact B |]. split; [| split].
  - destruct (portion_update_options end_char_token self a options E)
      as [k [Ek ->]].
    rewrite B.
    rewrite portion_case_options, portion_inside_options by reflexivity.
    rewrite !portion_flag_options by reflexivity.
    rewrite (portion_key_delay_options end_char_token _ k)
      by (solve [reflexivity | exact Ek]).
    rewrite portion_priority_options, portion_mode_options by reflexivity.
    reflexivity.
  - rewrite update_run, E. reflexivity.
  - intros o. rewrite !update_run.
    rewrite !update_options_blocks. simpl. rewrite W. reflexivity.
Qed.

(** The portions of the blocks that cannot hold a token of the kind
    asked for are empty. *)
Ltac other_blocks Ek :=
  rewrite ?portion_case_options, ?portion_inside_options,
    ?portion_end_char_options, ?portion_flag_options,
    ?portion_priority_options, ?portion_mode_options by reflexivity;
  rewrite ?(portion_key_delay_options _ _ _ (fun _ => eq_refl) Ek).

(** C2, as the code has it.  With [omit_end_char=True] and
    [wait_for_end_char] unset the end-char tokens are [*0] followed by
    [O], the same two as with [wait_for_end_char=True]; with
    [wait_for_end_char=True] and [omit_end_char=False] they are [*0]
    followed by [O0].  [update] sends the directive that carries these
    options. *)
Theorem end_char_table self a options :
  Hotstring.update_options self a = Returns options ->
  (Hotstring.wait_for_end_char a = None ->
   Hotstring.omit_end_char a = Some true ->
   portion end_char_token options = ["*0"; "O"]) /\
  (Hotstring.wait_for_end_char a = Some true ->
   Hotstring.omit_end_char a = Some true ->
   portion end_char_token options = ["*0"; "O"]) /\
  (Hotstring.wait_for_end_char a = Some true ->
   Hotstring.omit_end_char a = Some false ->
   portion end_char_token options = ["*0"; "O0"]) /\
  (forall h,
     Hotstring.update self a h =
       (Returns tt,
        h ++ in_context (Hotstring.context self)
               [hotstring_directive self options (Hotstring.replacement a)])).
Proof.
  intros E.
  assert (U : forall h,
    Hotstring.update self a h =
      (Returns tt,
        h ++ in_context (Hotstring.context self)
               [hotstring_directive self options (Hotstring.replacement a)])).
  { intros h. rewrite update_run, E. reflexivity. }
  destruct (portion_update_options end_char_token self a options E)
    as [k [Ek ->]].
  other_blocks Ek.
  repeat split; try exact U; intros -> ->; reflexivity.
Qed.

Lemma case_sensitive_Hotstring s cs riw ctx :
  Hotstring.case_sensitive (Hotstring.Hotstring s cs riw ctx) = cs.
Proof. destruct cs; reflexivity. Qed.

(** C3.  A hotstring constructed with [case_sensitive=True] has the case
    block append [C] at every [update]: whenever options are built they
    start with [C], which is the only one of [C], [C0], [C1] among them;
    [update] sends the directive that carries these options, whose option
    string so begins with [C]; and it sends the same directive for every
    value of [conform_to_case]. *)
Theorem case_sensitive_emits_C s riw ctx a options h :
  let self := Hotstring.Hotstring s true riw ctx in
  Hotstring.update_options self a = Returns options ->
  Hotstring.case_options self (Hotstring.conform_to_case a) = ["C"] /\
  hd_error options = Some "C" /\
  portion case_token options = ["C"] /\
  Hotstring.update self a h =
    (Returns tt,
     h ++ in_context (Hotstring.context self)
            [hotstring_directive self options (Hotstring.replacement a)]) /\
  (exists rest, String.concat "" options = String "C" rest) /\
  forall c,
    Hotstring.update_options self (with_conform_to_case c a) = Returns options /\
    Hotstring.update self (with_conform_to_case c a) h =
    Hotstring.update self a h.
Proof.
  intros self E.
  assert (B : forall c, Hotstring.case_options self c = ["C"]).
  { intros c. unfold Hotstring.case_options, self.
    rewrite case_sensitive_Hotstring. reflexivity. }
  assert (Hd : exists tl, options = "C" :: tl).
  { rewrite update_options_blocks in E. rewrite B in E.
    destruct (Hotstring.key_delay_options (Hotstring.key_delay a));
      simpl in E; [| discriminate E].
    injection E as <-. eexists. reflexivity. }
  split; [apply B |]. split; [| split; [| split; [| split]]].
  - destruct Hd as [tl ->]. reflexivity.
  - destruct (portion_update_options case_token self a options E)
      as [k [Ek ->]].
    rewrite B. other_blocks Ek. reflexivity.
  - rewrite update_run, E. reflexivity.
  - destruct Hd as [tl ->]. destruct tl; simpl; eexists; reflexivity.
  - intros c.
    assert (E' : Hotstring.update_options self (with_conform_to_case c a) =
                 Hotstring.update_options self a).
    { rewrite !update_options_blocks, !B. reflexivity. }
    split; [rewrite E'; exact E |].
    rewrite !update_run, E'. reflexivity.
Qed.

(** C4.  The constructor stores the lower-cased trigger when
    [case_sensitive] is false, so the stored trigger is its own lower
    case, and stores the trigger as given when it is true. *)
Theorem hotstring_case_folding (s : string) riw ctx :
  Hotstring.string (Hotstring.Hotstring s false riw ctx) = lower s /\
  lower (Hotstring.string (Hotstring.Hotstring s false riw ctx)) =
    Hotstring.string (Hotstring.Hotstring s false riw ctx) /\
  Hotstring.string (Hotstring.Hotstring s true riw ctx) = s.
Proof.
  repeat split. simpl. apply lower_idempotent.
Qed.

(** A number that is [<= 0] is not [> 0]. *)
Lemma le0_not_gt0 (D : number) : le0 D = true -> gt0 D = false.
Proof.
  destruct D as [z | f]; simpl.
  - intros L. apply Z.leb_le in L. apply Z.ltb_ge. exact L.
  - rewrite leb_spec, ltb_spec.
    change (Prim2SF 0%float) with (S754_zero false).
    destruct (Prim2SF f) as [s | s | | s m e]; try destruct s;
      unfold SFleb, SFltb; simpl; congruence.
Qed.

Lemma key_delay_portion_singleton self a options t :
  Hotstring.update_options self a = Returns options ->
  Hotstring.key_delay_options (Hotstring.key_delay a) = Returns t ->
  portion key_delay_token options = portion key_delay_token t.
Proof.
  intros E Et.
  destruct (portion_update_options key_delay_token self a options E)
    as [k [Ek ->]].
  rewrite Et in Ek. injection Ek as <-.
  rewrite portion_case_options, portion_inside_options,
    portion_end_char_options, !portion_flag_options,
    portion_priority_options, portion_mode_options by reflexivity.
  simpl. apply app_nil_r.
Qed.

Lemma update_options_returns self a k :
  Hotstring.key_delay_options (Hotstring.key_delay a) = Returns k ->
  exists options, Hotstring.update_options self a = Returns options.
Proof.
  intros Ek. rewrite update_options_blocks, Ek. simpl. eexists. reflexivity.
Qed.

(** C5, as the code has it.  No [K] token without a [key_delay].  An
    [int] delay [D > 0] gives the token [K] followed by [D * 1000].  A
    [float] delay [D > 0] gives [K] followed by the integer part of the
    product [D * 1000.0] when that product is finite.  A delay [D <= 0]
    gives [K] followed by [D] as it is.  In each of these cases [update]
    sends the directive that carries the options.  When the product of a
    positive float delay is not finite, [int(...)] raises and [update]
    makes no call. *)
Theorem key_delay_scaling self a :
  (Hotstring.key_delay a = None ->
   exists options,
     Hotstring.update_options self a = Returns options /\
     portion key_delay_token options = [] /\
     (forall h,
        Hotstring.update self a h =
          (Returns tt,
           h ++ in_context (Hotstring.context self)
                  [hotstring_directive self options (Hotstring.replacement a)]))) /\
  (forall D, Hotstring.key_delay a = Some (PyInt D) -> 0 < D ->
   exists options,
     Hotstring.update_options self a = Returns options /\
     portion key_delay_token options = [("K" ++ str_of_int (D * 1000))%string] /\
     (forall h,
        Hotstring.update self a h =
          (Returns tt,
           h ++ in_context (Hotstring.context self)
                  [hotstring_directive self options (Hotstring.replacement a)]))) /\
  (forall f ms, Hotstring.key_delay a = Some (PyFloat f) ->
   gt0 (PyFloat f) = true ->
   to_int (times1000 (PyFloat f)) = Returns ms ->
   exists options,
     Hotstring.update_options self a = Returns options /\
     portion key_delay_token options = [("K" ++ str_of_int ms)%string] /\
     (forall h,
        Hotstring.update self a h =
          (Returns tt,
           h ++ in_context (Hotstring.context self)
                  [hotstring_directive self options (Hotstring.replacement a)]))) /\
  (forall D, Hotstring.key_delay a = Some D -> le0 D = true ->
   exists options,
     Hotstring.update_options self a = Returns options /\
     portion key_delay_token options = [("K" ++ format_number D)%string] /\
     (forall h,
        Hotstring.update self a h =
          (Returns tt,
           h ++ in_context (Hotstring.context self)
                  [hotstring_directive self options (Hotstring.replacement a)]))) /\
  (forall f e h, Hotstring.key_delay a = Some (PyFloat f) ->
   gt0 (PyFloat f) = true ->
   to_int (times1000 (PyFloat f)) = Raises e ->
   Hotstring.update self a h = (Raises e, h)).
Proof.
  assert (G : forall t,
    Hotstring.key_delay_options (Hotstring.key_delay a) = Returns t ->
    exists options, Hotstring.update_options self a = Returns options /\
                    portion key_delay_token options = portion key_delay_token t /\
                    (forall h,
        Hotstring.update self a h =
          (Returns tt,
           h ++ in_context (Hotstring.context self)
                  [hotstring_directive self options (Hotstring.replacement a)]))).
  { intros t Et. destruct (update_options_returns self a t Et) as [options E].
    exists options. split; [exact E |]. split.
    - apply (key_delay_portion_singleton self a options t E Et).
    - intros h. rewrite update_run, E. reflexivity. }
  split; [| split; [| split; [| split]]].
  - intros E. apply (G []). rewrite E. reflexivity.
  - intros D E P.
    destruct (G [("K" ++ str_of_int (D * 1000))%string]) as [options [E1 [E2 E3]]].
    + rewrite E. unfold Hotstring.key_delay_options.
      apply Z.ltb_lt in P. simpl. rewrite P. reflexivity.
    + exists options. split; [exact E1 |].
      split; [rewrite E2; reflexivity | exact E3].
  - intros f ms E P T.
    destruct (G [("K" ++ str_of_int ms)%string]) as [options [E1 [E2 E3]]].
    + rewrite E. unfold Hotstring.key_delay_options.
      rewrite P, T. reflexivity.
    + exists options. split; [exact E1 |].
      split; [rewrite E2; reflexivity | exact E3].
  - intros D E L.
    destruct (G [("K" ++ format_number D)%string]) as [options [E1 [E2 E3]]].
    + rewrite E. unfold Hotstring.key_delay_options.
      rewrite (le0_not_gt0 D L). reflexivity.
    + exists options. split; [exact E1 |].
      split; [rewrite E2; reflexivity | exact E3].
  - intros f e h E P T. rewrite update_run, update_options_blocks, E.
    unfold Hotstring.key_delay_options. rewrite P, T. reflexivity.
Qed.

Lemma mode_options_other m :
  lower m <> "input" -> lower m <> "play" -> lower m <> "event" ->
  Hotstring.mode_options (Some m) = [].
Proof.
  intros N1 N2 N3. unfold Hotstring.mode_options. simpl.
  apply String.eqb_neq in N1, N2, N3.
  unfold SendMode.INPUT, SendMode.PLAY, SendMode.EVENT.
  rewrite N1, N2, N3. reflexivity.
Qed.

(** C8.  [mode] is lower-cased and then compared: ["input"] gives [SI],
    ["play"] gives [SP], ["event"] gives [SE]; these are the send-mode
    tokens among the options, and [update] sends the directive that
    carries these options.  Any other string gives no token, and [update]
    then does exactly what it does without a [mode]: it raises nothing on
    account of the mode, and whenever the key delay converts it sends its
    directive and returns. *)
Theorem send_mode_tokens self a m h :
  Hotstring.mode a = Some m ->
  (lower m = "input" -> Hotstring.mode_options (Some m) = ["SI"]) /\
  (lower m = "play" -> Hotstring.mode_options (Some m) = ["SP"]) /\
  (lower m = "event" -> Hotstring.mode_options (Some m) = ["SE"]) /\
  (lower m <> "input" -> lower m <> "play" -> lower m <> "event" ->
   Hotstring.mode_options (Some m) = [] /\
   Hotstring.update self a h = Hotstring.update self (with_mode None a) h) /\
  (forall options, Hotstring.update_options self a = Returns options ->
   portion send_mode_token options = Hotstring.mode_options (Some m) /\
   Hotstring.update self a h =
     (Returns tt,
      h ++ in_context (Hotstring.context self)
             [hotstring_directive self options (Hotstring.replacement a)])) /\
  (forall k, Hotstring.key_delay_options (Hotstring.key_delay a) = Returns k ->
   fst (Hotstring.update self a h) = Returns tt /\
   exists options,
     Hotstring.update_options self a = Returns options /\
     Hotstring.update self a h =
       (Returns tt,
        h ++ in_context (Hotstring.context self)
               [hotstring_directive self options (Hotstring.replacement a)])).
Proof.
  intros M.
  split; [| split; [| split; [| split; [| split]]]].
  - intros E. unfold Hotstring.mode_options. simpl. rewrite E. reflexivity.
  - intros E. unfold Hotstring.mode_options. simpl. rewrite E. reflexivity.
  - intros E. unfold Hotstring.mode_options. simpl. rewrite E. reflexivity.
  - intros N1 N2 N3. pose proof (mode_options_other m N1 N2 N3) as O.
    split; [exact O |].
    rewrite !update_run, !update_options_blocks. simpl.
    rewrite M, O. reflexivity.
  - intros options E. split; [| rewrite update_run, E; reflexivity].
    destruct (portion_update_options send_mode_token self a options E)
      as [k [Ek ->]].
    rewrite M.
    rewrite portion_case_options, portion_inside_options,
      portion_end_char_options, !portion_flag_options,
      portion_priority_options by reflexivity.
    rewrite (portion_key_delay_options _ _ _ (fun _ => eq_refl) Ek).
    simpl. rewrite app_nil_r.
    unfold Hotstring.mode_options. simpl.
    destruct (lower m =? SendMode.INPUT)%string; [reflexivity |].
    destruct (lower m =? SendMode.PLAY)%string; [reflexivity |].
    destruct (lower m =? SendMode.EVENT)%string; reflexivity.
  - intros k Ek. rewrite update_run.
    destruct (update_options_returns self a k Ek) as [options E].
    rewrite E. split; [reflexivity |].
    exists options. split; reflexivity.
Qed.

End HotstringRun.

(* ===================================================================== *)
(** * Key state, sending and remapping *)
(* ===================================================================== *)

Section KeysRun.
Context `{AhkHost} `{Runtime}.

Lemma get_key_state_calls key_name mode h :
  snd (_get_key_state key_name mode h) =
  h ++ [Call "GetKeyState" [VStr key_name; opt_str mode]].
Proof.
  unfold _get_key_state, bind, ahk_call. simpl.
  destruct (ahk_reply h _) as [| s | | |]; try reflexivity.
  destruct s; reflexivity.
Qed.

Lemma toggle_keys_lower k : In k toggle_keys -> lower k = k.
Proof.
  unfold toggle_keys. simpl.
  intros [<- | [<- | [<- | [<- | [<- | []]]]]]; reflexivity.
Qed.

(** C7.  A key name whose lower case is not one of the five names makes
    [is_key_toggled] raise [ValueError] with the record of calls
    untouched; a key name whose lower case is one of them, and so every
    casing of the five names, goes on to the host query
    [GetKeyState(key_name, "T")]. *)
Theorem is_key_toggled_validates key_name h :
  (~ In (lower key_name) toggle_keys ->
   is_key_toggled key_name h =
   (Raises (ValueError
      "key_name must be one of CapsLock, NumLock, ScrollLock, or Insert"), h)) /\
  (In (lower key_name) toggle_keys ->
   is_key_toggled key_name h = _get_key_state key_name (Some "T") h /\
   snd (is_key_toggled key_name h) =
     h ++ [Call "GetKeyState" [VStr key_name; VStr "T"]]) /\
  (forall k, In k toggle_keys -> casing_of key_name k ->
   snd (is_key_toggled key_name h) =
     h ++ [Call "GetKeyState" [VStr key_name; VStr "T"]]).
Proof.
  assert (Y : In (lower key_name) toggle_keys ->
              is_key_toggled key_name h = _get_key_state key_name (Some "T") h).
  { intros I. apply str_in_In in I. unfold is_key_toggled.
    rewrite I. reflexivity. }
  split; [| split].
  - intros N. apply str_in_not_In in N. unfold is_key_toggled.
    rewrite N. reflexivity.
  - intros I. split; [exact (Y I) |].
    rewrite (Y I). apply get_key_state_calls.
  - intros k I C. apply casing_of_lower in C.
    rewrite (toggle_keys_lower k I) in C.
    rewrite Y by (rewrite C; exact I).
    apply get_key_state_calls.
Qed.

Lemma send_level_in_range level h :
  0 <= level <= 100 ->
  _send_level level h = (Returns tt, h ++ [Call "SendLevel" [VInt level]]).
Proof.
  intros [L U]. unfold _send_level.
  apply Z.leb_le in L, U. rewrite L, U. reflexivity.
Qed.

Lemma send_level_out_of_range level h :
  level < 0 \/ 100 < level ->
  _send_level level h =
  (Raises (ValueError "level must be between 0 and 100"), h).
Proof.
  intros O. unfold _send_level.
  assert (E : (0 <=? level) && (level <=? 100) = false).
  { apply andb_false_iff. destruct O as [O | O].
    - left. apply Z.leb_gt. exact O.
    - right. apply Z.leb_gt. exact O. }
  rewrite E. reflexivity.
Qed.

(** C6.  [send] with a level below 0 or above 100 raises [ValueError]
    and leaves the record of calls as it was; [_send_level] accepts the
    levels 0 and 100, and with them [send] in any of the three modes
    sets the level, sends the keys and returns. *)
Theorem send_level_range keys mode level h :
  (level < 0 \/ 100 < level ->
   exists msg, send keys mode level h = (Raises (ValueError msg), h)) /\
  (level = 0 \/ level = 100 ->
   _send_level level h = (Returns tt, h ++ [Call "SendLevel" [VInt level]]) /\
   send keys SendMode.INPUT level h =
     (Returns tt,
      h ++ [Call "SendLevel" [VInt level]; Call "SendInput" [VStr keys]]) /\
   send keys SendMode.PLAY level h =
     (Returns tt,
      h ++ [Call "SendLevel" [VInt level]; Call "SendPlay" [VStr keys]]) /\
   send keys SendMode.EVENT level h =
     (Returns tt,
      h ++ [Call "SendLevel" [VInt level]; Call "SendEvent" [VStr keys]])).
Proof.
  split.
  - intros O. unfold send, bind, ret, raise.
    destruct (mode =? SendMode.INPUT)%string;
      [| destruct (mode =? SendMode.PLAY)%string;
         [| destruct (mode =? SendMode.EVENT)%string]];
      try (rewrite (send_level_out_of_range level h O)); eexists; reflexivity.
  - intros B.
    assert (R : 0 <= level <= 100) by lia.
    split; [apply send_level_in_range; exact R |].
    unfold send, bind, ret. simpl.
    rewrite (send_level_in_range level h R).
    unfold ahk_call. rewrite <- !app_assoc. simpl. repeat split.
Qed.

(** [enable], [disable] and [toggle] of a hotkey: one [HotkeySpecial]
    directive inside the hotkey's context. *)
Lemma hotkey_special_run (hk : Hotkey.t) h :
  let special what :=
    in_context (Hotkey.context hk)
      [Call "HotkeySpecial" [VStr (Hotkey.key_name hk); VStr what]] in
  Hotkey.enable hk h = (Returns tt, h ++ special "On") /\
  Hotkey.disable hk h = (Returns tt, h ++ special "Off") /\
  Hotkey.toggle hk h = (Returns tt, h ++ special "Toggle").
Proof.
  unfold Hotkey.enable, Hotkey.disable, Hotkey.toggle, bind.
  repeat split;
    match goal with
    | |- context [BaseContext._manager ?c (ahk_call ?d ?a) h] =>
        destruct (manager_one_call c d a h) as [v ->]
    end; reflexivity.
Qed.

(** A remapped key of any two hotkeys hands each of [enable], [disable]
    and [toggle] to the key-down hotkey and then to the key-up hotkey. *)
Lemma remapped_key_cascade (pair : RemappedKey.t) h :
  let special hk what :=
    in_context (Hotkey.context hk)
      [Call "HotkeySpecial" [VStr (Hotkey.key_name hk); VStr what]] in
  let down := RemappedKey.wildcard_origin pair in
  let up := RemappedKey.wildcard_origin_up pair in
  RemappedKey.enable pair h =
    (Returns tt, h ++ special down "On" ++ special up "On") /\
  RemappedKey.disable pair h =
    (Returns tt, h ++ special down "Off" ++ special up "Off") /\
  RemappedKey.toggle pair h =
    (Returns tt, h ++ special down "Toggle" ++ special up "Toggle").
Proof.
  intros special down up.
  unfold RemappedKey.enable, RemappedKey.disable, RemappedKey.toggle, bind.
  fold down up.
  destruct (hotkey_special_run down h) as [E1 [D1 T1]].
  rewrite E1, D1, T1.
  match goal with
  | |- context [Hotkey.enable up ?h'] =>
      destruct (hotkey_special_run up h') as [E2 _]
  end.
  match goal with
  | |- context [Hotkey.disable up ?h'] =>
      destruct (hotkey_special_run up h') as [_ [D2 _]]
  end.
  match goal with
  | |- context [Hotkey.toggle up ?h'] =>
      destruct (hotkey_special_run up h') as [_ [_ T2]]
  end.
  rewrite E2, D2, T2, <- !app_assoc. repeat split.
Qed.

(** C9.  [remap_key] registers and enables two hotkeys of the default
    context, [*origin] and [*origin Up], and returns the pair; [enable],
    [disable] and [toggle] of the pair each make two calls, one for each
    hotkey, in that order. *)
Theorem remap_key_composite origin destination h :
  let down := Hotkey.Hotkey ("*" ++ origin) default_context in
  let up := Hotkey.Hotkey ("*" ++ origin ++ " Up") default_context in
  let pair := RemappedKey.RemappedKey down up in
  let special key what := Call "HotkeySpecial" [VStr key; VStr what] in
  remap_key origin destination h =
    (Returns pair,
     h ++ [Call "Hotkey"
             [VInt (hash_context default_context); VStr ("*" ++ origin);
              VFunc (SendClosure ("{Blind}{" ++ destination ++ " DownR}"));
              VStr "B0P0T1I0"];
           special ("*" ++ origin)%string "On";
           Call "Hotkey"
             [VInt (hash_context default_context);
              VStr ("*" ++ origin ++ " Up");
              VFunc (SendClosure ("{Blind}{" ++ destination ++ " Up}"));
              VStr "B0P0T1I0"];
           special ("*" ++ origin ++ " Up")%string "On"]) /\
  (forall h', RemappedKey.enable pair h' =
     (Returns tt,
      h' ++ [special ("*" ++ origin)%string "On";
             special ("*" ++ origin ++ " Up")%string "On"])) /\
  (forall h', RemappedKey.disable pair h' =
     (Returns tt,
      h' ++ [special ("*" ++ origin)%string "Off";
             special ("*" ++ origin ++ " Up")%string "Off"])) /\
  (forall h', RemappedKey.toggle pair h' =
     (Returns tt,
      h' ++ [special ("*" ++ origin)%string "Toggle";
             special ("*" ++ origin ++ " Up")%string "Toggle"])).
Proof.
  simpl. repeat split.
  - unfold remap_key, hotkey, BaseHotkeyContext_hotkey, Hotkey.update,
      Hotkey.enable, BaseContext._manager, bind, ret, ahk_call.
    simpl. rewrite <- !app_assoc. reflexivity.
  - intros h'. unfold RemappedKey.enable, Hotkey.enable,
      BaseContext._manager, bind, ret, ahk_call.
    simpl. rewrite <- !app_assoc. reflexivity.
  - intros h'. unfold RemappedKey.disable, Hotkey.disable,
      BaseContext._manager, bind, ret, ahk_call.
    simpl. rewrite <- !app_assoc. reflexivity.
  - intros h'. unfold RemappedKey.toggle, Hotkey.toggle,
      BaseContext._manager, bind, ret, ahk_call.
    simpl. rewrite <- !app_assoc. reflexivity.
Qed.

End KeysRun.

(* ===================================================================== *)
(** * Menu items *)
(* ===================================================================== *)

Section MenuRun.
Context `{AhkHost} `{Runtime}.

Variable P : call -> Prop.

Lemma only_calls_ret {A : Type} (a : A) : only_calls P (ret a).
Proof. intros h. exists []. split; [symmetry; apply app_nil_r | constructor]. Qed.

Lemma only_calls_raise {A : Type} (e : exn) : only_calls P (@raise A e).
Proof. intros h. exists []. split; [symmetry; apply app_nil_r | constructor]. Qed.

Lemma only_calls_bind {A B : Type} (m : io A) (k : A -> io B) :
  only_calls P m -> (forall a, only_calls P (k a)) -> only_calls P (bind m k).
Proof.
  intros Hm Hk h. destruct (Hm h) as [n1 [E1 F1]]. unfold bind.
  destruct (m h) as [[a | e] h1]; simpl in E1; subst h1.
  - destruct (Hk a (h ++ n1)) as [n2 [E2 F2]].
    exists (n1 ++ n2). split.
    + rewrite E2. symmetry. apply app_assoc.
    + apply Forall_app. split; assumption.
  - exists n1. split; [reflexivity | exact F1].
Qed.

Lemma only_calls_ahk_call cmd args :
  P (Call cmd args) -> only_calls P (ahk_call cmd args).
Proof.
  intros Pc h. exists [Call cmd args]. split; [reflexivity |].
  constructor; [exact Pc | constructor].
Qed.

Lemma only_calls_when b (m : io unit) :
  only_calls P m -> only_calls P (Menu.when b m).
Proof. intros Hm. destruct b; [exact Hm | apply only_calls_ret]. Qed.

Lemma only_calls_menu_call self args :
  P (Call "Menu" (VStr (Menu.name self) :: args)) ->
  only_calls P (Menu._call self args).
Proof. apply only_calls_ahk_call. Qed.

End MenuRun.

Section MenuItems.
Context `{AhkHost} `{Runtime}.

Ltac calls :=
  repeat first
    [ apply only_calls_ret
    | apply only_calls_raise
    | apply only_calls_when
    | apply only_calls_menu_call; reflexivity
    | apply only_calls_bind; [| intros ?]
    | match goal with
      | |- only_calls _ (if ?b then _ else _) => destruct b
      end ].

Lemma item_directive_run d self item h :
  Menu.item_directive d self item h =
  (Returns tt, h ++ [Call "Menu" [VStr (Menu.name self); VStr d;
                                  Menu._item_name item]]).
Proof. reflexivity. Qed.

Lemma item_directive_calls (P : call -> Prop) d self item :
  P (Call "Menu" [VStr (Menu.name self); VStr d; Menu._item_name item]) ->
  only_calls P (Menu.item_directive d self item).
Proof.
  intros Pc h. rewrite item_directive_run.
  exists [Call "Menu" [VStr (Menu.name self); VStr d; Menu._item_name item]].
  split; [reflexivity | constructor; [exact Pc | constructor]].
Qed.

Lemma set_icon_calls (P : call -> Prop) self item filename number width :
  (forall n, P (Call "Menu" [VStr (Menu.name self); VStr "Icon";
                             Menu._item_name item; filename; VInt n;
                             Menu.opt_int width])) ->
  only_calls P (Menu.set_icon self item filename number width).
Proof.
  intros Pc. unfold Menu.set_icon. calls.
  apply only_calls_menu_call. apply Pc.
Qed.

(** On the update path every directive names the item. *)
Lemma update_calls_name_item self s new_name callback submenu kw :
  only_calls (fun c => item_arg c = Some (VStr s))
    (Menu._insert_or_update self (VStr s) new_name callback submenu true kw).
Proof.
  unfold Menu._insert_or_update, Menu.rename,
    Menu.enable, Menu.disable, Menu.check, Menu.uncheck.
  cbn [Menu._item_name not_None].
  calls;
    solve [ apply item_directive_calls; reflexivity
          | apply set_icon_calls; intros; reflexivity ].
Qed.

(** On the insert path the first directive is [Insert] before the
    item. *)
Lemma insert_first_call self s new_name callback submenu kw h :
  exists thing rest,
    snd (Menu._insert_or_update self (VStr s) new_name callback submenu
           false kw h) =
    h ++ Call "Menu" [VStr (Menu.name self); VStr "Insert"; VStr s;
                      new_name; thing; VStr (Menu.option_str kw)] :: rest.
Proof.
  unfold Menu._insert_or_update. cbn [Menu._item_name].
  match goal with
  | |- context [bind (Menu._call _ [_; _; _; ?thing; _]) ?k] =>
      exists thing;
      assert (K : only_calls (fun _ => True) (k VNone))
  end.
  { unfold Menu.set_default, Menu.disable, Menu.check.
    calls;
      solve [ apply item_directive_calls; exact I
            | apply set_icon_calls; intros; exact I ]. }
  unfold bind at 1. unfold Menu._call, ahk_call. cbn [fst snd].
  match goal with
  | |- context [h ++ [?c]] => destruct (K (h ++ [c])) as [rest [E _]]
  end.
  exists rest. cbn beta in E. rewrite E. rewrite <- app_assoc. reflexivity.
Qed.

Lemma item_name_idempotent item :
  Menu._item_name (Menu._item_name item) = Menu._item_name item.
Proof. destruct item; reflexivity. Qed.

Lemma number_or_0 (number : option Z) :
  match number with
  | Some n => if n =? 0 then 0 else n
  | None => 0
  end = match number with Some n => n | None => 0 end.
Proof.
  destruct number as [n |]; [| reflexivity].
  destruct (n =? 0) eqn:E; [| reflexivity].
  apply Z.eqb_eq in E. symmetry. exact E.
Qed.

Lemma set_icon_run self item filename number width h :
  Menu.set_icon self item filename number width h =
  (Returns tt,
   h ++ [Call "Menu"
           [VStr (Menu.name self); VStr "Icon"; Menu._item_name item; filename;
            VInt (match number with Some n => n | None => 0 end + 1);
            Menu.opt_int width]]).
Proof. unfold Menu.set_icon. rewrite number_or_0. reflexivity. Qed.

Lemma option_str_without_default kw :
  Menu.option_str (Menu.without_default kw) = Menu.option_str kw.
Proof. destruct kw; reflexivity. Qed.

(** The whole run of [update]: the steps in their order, each with the
    item translated once. *)
Lemma update_run_steps self item new_name callback submenu kw h :
  Menu.update self item new_name callback submenu kw h =
  (Returns tt,
   h ++ update_steps self (Menu._item_name item) new_name callback submenu kw).
Proof.
  unfold Menu.update, Menu._insert_or_update, update_steps, Menu.rename,
    Menu.enable, Menu.disable, Menu.check, Menu.uncheck, Menu.item_directive,
    Menu.set_icon.
  rewrite option_str_without_default, number_or_0.
  replace (Menu.enabled (Menu.without_default kw)) with (Menu.enabled kw)
    by (destruct kw; reflexivity).
  replace (Menu.checked (Menu.without_default kw)) with (Menu.checked kw)
    by (destruct kw; reflexivity).
  replace (Menu.icon (Menu.without_default kw)) with (Menu.icon kw)
    by (destruct kw; reflexivity).
  replace (Menu.icon_number (Menu.without_default kw))
    with (Menu.icon_number kw) by (destruct kw; reflexivity).
  replace (Menu.icon_width (Menu.without_default kw))
    with (Menu.icon_width kw) by (destruct kw; reflexivity).
  rewrite !item_name_idempotent.
  replace (if not_None (Menu._item_name item)
           then Menu._item_name item else Menu._item_name item)
    with (Menu._item_name item) by (destruct (not_None _); reflexivity).
  generalize (Menu._item_name item) as it. intros it.
  generalize (Menu.option_str kw) as o. intros o.
  destruct (Menu.is_UNSET new_name), (str_truth o), submenu, callback,
    (Menu.enabled kw) as [[|] |], (Menu.checked kw) as [[|] |],
    (value_truth (Menu.icon kw));
    cbn; rewrite <- ?app_assoc; rewrite ?app_nil_r; reflexivity.
Qed.

Lemma snd_bind_ret {A B : Type} (m : io A) (b : B) h :
  snd (bind m (fun _ => ret b) h) = snd (m h).
Proof. unfold bind, ret. destruct (m h) as [[a | e] h']; reflexivity. Qed.

(** C10.  [_item_name] turns the position [n] into the string of
    [n + 1] followed by [&] and leaves a string as it is.  Every
    operation that takes an item does to the host with the position [n]
    what it does with that string.  With a string [s], the operations
    that send one directive send it with [s]; [set_icon] sends its [Icon]
    directive with [s]; [update] sends each of its steps with [s], and
    nothing else; the insert operations send [Insert] before [s] first. *)
Theorem item_position_translated self op :
  (forall n, Menu._item_name (VInt n) = VStr (str_of_int (n + 1) ++ "&")) /\
  (forall s, Menu._item_name (VStr s) = VStr s) /\
  (forall n h,
     run_item_op self op (VInt n) h =
     run_item_op self op (VStr (str_of_int (n + 1) ++ "&")) h) /\
  (forall s h d extra, directive_of op = Some (d, extra) ->
     run_item_op self op (VStr s) h =
     (Returns tt,
      h ++ [Call "Menu" (VStr (Menu.name self) :: VStr d :: VStr s :: extra)])) /\
  (forall s h filename number width,
     op = op_set_icon filename number width ->
     run_item_op self op (VStr s) h =
     (Returns tt,
      h ++ [Call "Menu"
              [VStr (Menu.name self); VStr "Icon"; VStr s; filename;
               VInt (match number with Some n => n | None => 0 end + 1);
               Menu.opt_int width]])) /\
  (forall s h new_name callback submenu kw,
     op = op_update new_name callback submenu kw ->
     run_item_op self op (VStr s) h =
     (Returns tt,
      h ++ update_steps self (VStr s) new_name callback submenu kw)) /\
  (forall s, is_insert op = false ->
     only_calls (fun c => item_arg c = Some (VStr s))
       (run_item_op self op (VStr s))) /\
  (forall s h, is_insert op = true ->
     exists c rest,
       snd (run_item_op self op (VStr s) h) = h ++ c :: rest /\
       nth_error (args c) 1 = Some (VStr "Insert") /\
       item_arg c = Some (VStr s)).
Proof.
  split; [reflexivity |]. split; [reflexivity |].
  split; [| split; [| split; [| split; [| split]]]].
  - intros n h. destruct op; reflexivity.
  - intros s h d extra D.
    destruct op; simpl in D; try discriminate D;
      injection D as <- <-; reflexivity.
  - intros s h filename number width ->. apply set_icon_run.
  - intros s h new_name callback submenu kw ->. apply update_run_steps.
  - intros s NI. destruct op; simpl in NI; try discriminate NI; simpl;
      try (apply item_directive_calls; reflexivity).
    + unfold Menu.rename. cbn [not_None Menu._item_name].
      apply only_calls_bind; [| intros ?; apply only_calls_ret].
      apply only_calls_menu_call. reflexivity.
    + apply set_icon_calls. intros; reflexivity.
    + unfold Menu.update.
      apply only_calls_bind; [| intros ?; apply only_calls_ret].
      apply update_calls_name_item.
  - intros s h I.
    assert (F : forall new_name callback submenu kw,
      exists c rest,
        snd (Menu._insert_or_update self (VStr s) new_name callback submenu
               false kw h) = h ++ c :: rest /\
        nth_error (args c) 1 = Some (VStr "Insert") /\
        item_arg c = Some (VStr s)).
    { intros new_name callback submenu kw.
      destruct (insert_first_call self s new_name callback submenu kw h)
        as [thing [rest E]].
      eexists. exists rest. split; [exact E |]. split; reflexivity. }
    destruct op; simpl in I; try discriminate I; cbn [run_item_op];
      rewrite snd_bind_ret;
      unfold Menu.insert, Menu.insert_separator, Menu.insert_submenu;
      cbn [not_None negb]; apply F.
Qed.

End MenuItems.

(* ===================================================================== *)
(** * The text of numbers, and the option string of a hotkey *)
(* ===================================================================== *)

Lemma append_empty_r (s : string) : (s ++ "")%string = s.
Proof. induction s as [| c s IH]; simpl; [| rewrite IH]; reflexivity. Qed.

Lemma concat_empty_cons (x : string) (l : list string) :
  String.concat "" (x :: l) = (x ++ String.concat "" l)%string.
Proof.
  destruct l; simpl; [symmetry; apply append_empty_r | reflexivity].
Qed.

Lemma append_assoc (a b c : string) : ((a ++ b) ++ c = a ++ (b ++ c))%string.
Proof. induction a as [| x a IH]; simpl; [| rewrite IH]; reflexivity. Qed.

Lemma concat_empty_app (l1 l2 : list string) :
  String.concat "" (l1 ++ l2) =
  (String.concat "" l1 ++ String.concat "" l2)%string.
Proof.
  induction l1 as [| x l1 IH].
  - reflexivity.
  - rewrite <- app_comm_cons, !concat_empty_cons, IH.
    symmetry. apply append_assoc.
Qed.

(** The decimal text of an [int] reads back as that [int]. *)
Lemma int_of_str_of_int z : int_of_str (str_of_int z) = Some z.
Proof.
  unfold int_of_str, str_of_int.
  rewrite NilZero.isi.
  - simpl. rewrite DecimalZ.of_to. reflexivity.
  - destruct z; simpl; try discriminate.
    intros [= E]. exact (Unsigned.to_uint_nonnil _ E).
  - destruct z; simpl; try discriminate.
    intros [= E]. exact (Unsigned.to_uint_nonnil _ E).
Qed.

Lemma str_of_int_inj a b : str_of_int a = str_of_int b -> a = b.
Proof.
  intros E. pose proof (int_of_str_of_int a) as Ea.
  rewrite E, int_of_str_of_int in Ea. injection Ea as ->. reflexivity.
Qed.

Lemma length_append (a b : string) :
  String.length (a ++ b) = (String.length a + String.length b)%nat.
Proof. induction a as [| c a IH]; simpl; [| rewrite IH]; reflexivity. Qed.

Lemma append_cancel_r (a b c : string) : (a ++ c = b ++ c)%string -> a = b.
Proof.
  intros E.
  assert (L : String.length a = String.length b).
  { apply (f_equal String.length) in E. rewrite !length_append in E. lia. }
  revert b E L. induction a as [| x a IH]; intros [| y b] E L;
    try discriminate L.
  - reflexivity.
  - simpl in E. injection E as -> E. f_equal. apply IH; [exact E |].
    simpl in L. lia.
Qed.

Lemma all_digits_uint d : all_digits (NilEmpty.string_of_uint d) = true.
Proof. induction d; simpl; auto. Qed.

Lemma all_digits_str_of_int z : all_digits (str_of_int z) = true.
Proof.
  unfold str_of_int, NilZero.string_of_int, NilZero.string_of_uint.
  destruct (Z.to_int z) as [d | d]; destruct d; simpl;
    try reflexivity; apply all_digits_uint.
Qed.

Lemma digits_split d1 d2 r1 r2 :
  all_digits d1 = true -> all_digits d2 = true ->
  stops r1 = true -> stops r2 = true ->
  (d1 ++ r1 = d2 ++ r2)%string -> d1 = d2 /\ r1 = r2.
Proof.
  revert d2. induction d1 as [| c d1 IH]; intros [| c' d2] A1 A2 S1 S2 E;
    simpl in *.
  - split; [reflexivity | exact E].
  - subst r1. simpl in S1. apply andb_true_iff in A2. destruct A2 as [A2 _].
    rewrite A2 in S1. discriminate S1.
  - subst r2. simpl in S2. apply andb_true_iff in A1. destruct A1 as [A1 _].
    rewrite A1 in S2. discriminate S2.
  - injection E as -> E.
    apply andb_true_iff in A1, A2. destruct A1 as [_ A1], A2 as [_ A2].
    destruct (IH d2 A1 A2 S1 S2 E) as [-> ->]. split; reflexivity.
Qed.

Lemma number_split a b r1 r2 :
  stops r1 = true -> stops r2 = true ->
  (str_of_int a ++ r1 = str_of_int b ++ r2)%string -> a = b /\ r1 = r2.
Proof.
  intros S1 S2 E.
  destruct (digits_split _ _ _ _ (all_digits_str_of_int a)
              (all_digits_str_of_int b) S1 S2 E) as [E1 E2].
  split; [apply str_of_int_inj; exact E1 | exact E2].
Qed.

(** The option string that [Hotkey.update] sends tells the options it
    was given: two calls with the same option string had the same
    [buffer], [priority], [max_threads] and [input_level]. *)
Theorem hotkey_option_string_inj b p t i b' p' t' i' :
  String.concat "" (Hotkey.update_options b p t i) =
  String.concat "" (Hotkey.update_options b' p' t' i') ->
  b = b' /\ p = p' /\ t = t' /\ i = i'.
Proof.
  intros E.
  destruct b as [[|] |], p as [p |], t as [t |], i as [i |],
    b' as [[|] |], p' as [p' |], t' as [t' |], i' as [i' |];
    cbn [Hotkey.update_options truth given app] in E;
    rewrite ?concat_empty_cons in E; cbn [String.concat] in E;
    simpl in E; try discriminate E;
    repeat match goal with
    | E : String _ _ = String _ _ |- _ => injection E as E
    | E : (str_of_int _ ++ _ = str_of_int _ ++ _)%string |- _ =>
        apply number_split in E; [destruct E as [-> E] | reflexivity ..]
    end;
    try discriminate; repeat split; reflexivity.
Qed.

(* ===================================================================== *)
(** * Key state, sending and registration: further properties *)
(* ===================================================================== *)

Section KeysFurther.
Context `{AhkHost} `{Runtime}.

(** [is_key_toggled] raises nothing but [ValueError], in two ways: for a
    name that is not one of the five, before any call; for an empty
    answer of the host, after the one query.  When it returns, the name
    was one of the five and the result is the truth of the answer. *)
Theorem is_key_toggled_outcomes key_name h :
  let query := Call "GetKeyState" [VStr key_name; VStr "T"] in
  let answer := ahk_reply h query in
  match is_key_toggled key_name h with
  | (Raises e, h') =>
      exists msg, e = ValueError msg /\
        ((~ In (lower key_name) toggle_keys /\ h' = h) \/
         (In (lower key_name) toggle_keys /\ answer = VStr "" /\
          h' = h ++ [query]))
  | (Returns b, h') =>
      In (lower key_name) toggle_keys /\ answer <> VStr "" /\
      b = value_truth answer /\ h' = h ++ [query]
  end.
Proof.
  intros query answer. unfold is_key_toggled.
  destruct (str_in (lower key_name) toggle_keys) eqn:I; simpl.
  - apply str_in_In in I.
    unfold _get_key_state, bind, ahk_call. simpl. fold query. fold answer.
    destruct answer as [| s | | |] eqn:A;
      try (repeat split; try assumption; discriminate).
    destruct s.
    + eexists. split; [reflexivity |]. right. repeat split; assumption.
    + repeat split; try assumption; discriminate.
  - apply str_in_not_In in I. eexists. split; [reflexivity |]. left.
    split; [exact I | reflexivity].
Qed.

(** Whatever [state] is, [_set_key_state] makes one call, with one of the
    four words and returns.  A string that lower-cases to [always_on] or
    [alwayson] gives [AlwaysOn], one that lower-cases to [always_off] or
    [alwaysoff] gives [AlwaysOff]; every other non-empty string, ["off"]
    among them, gives [On]. *)
Theorem set_key_state_word cmd state h :
  let sends word :=
    _set_key_state cmd state h = (Returns tt, h ++ [Call cmd [VStr word]]) in
  (exists word, In word ["AlwaysOn"; "AlwaysOff"; "On"; "Off"] /\ sends word) /\
  (forall s, state = VStr s -> In (lower s) ["always_on"; "alwayson"] ->
   sends "AlwaysOn") /\
  (forall s, state = VStr s -> In (lower s) ["always_off"; "alwaysoff"] ->
   sends "AlwaysOff") /\
  (forall s, state = VStr s -> s <> "" ->
   ~ In (lower s) ["always_on"; "alwayson"; "always_off"; "alwaysoff"] ->
   sends "On").
Proof.
  intros sends. unfold sends, _set_key_state, bind, ahk_call, ret.
  split; [| split; [| split]].
  - destruct (str_and _ state); [| destruct (str_and _ state);
      [| destruct (value_truth state)]];
      eexists; (split; [| reflexivity]); simpl; tauto.
  - intros s -> I. apply str_in_In in I. cbn [str_and]. rewrite I. reflexivity.
  - intros s -> I. cbn [str_and].
    assert (N : str_in (lower s) ["always_on"; "alwayson"] = false).
    { destruct I as [<- | [<- | []]]; reflexivity. }
    apply str_in_In in I. rewrite N, I. reflexivity.
  - intros s -> NE NI. cbn [str_and].
    assert (N1 : str_in (lower s) ["always_on"; "alwayson"] = false).
    { apply str_in_not_In. intros I. apply NI. simpl in *. tauto. }
    assert (N2 : str_in (lower s) ["always_off"; "alwaysoff"] = false).
    { apply str_in_not_In. intros I. apply NI. simpl in *. tauto. }
    rewrite N1, N2. destruct s; [congruence | reflexivity].
Qed.

(** [key_wait_pressed] and [key_wait_released] make the same one
    [KeyWait] call but for a leading [D] in the options of the former, and
    each returns true exactly when the answer of the host is false (no
    timeout). *)
Theorem key_wait_pressed_released key_name logical_state timeout h :
  exists options,
    let released := Call "KeyWait" [VStr key_name; VStr options] in
    let pressed := Call "KeyWait" [VStr key_name; VStr ("D" ++ options)] in
    key_wait_released key_name logical_state timeout h =
      (Returns (negb (value_truth (ahk_reply h released))), h ++ [released]) /\
    key_wait_pressed key_name logical_state timeout h =
      (Returns (negb (value_truth (ahk_reply h pressed))), h ++ [pressed]).
Proof.
  exists (String.concat "" (key_wait_options false logical_state timeout)).
  split; [reflexivity |].
  unfold key_wait_pressed, _key_wait, bind, ahk_call, ret.
  assert (E : String.concat "" (key_wait_options true logical_state timeout) =
              ("D" ++ String.concat ""
                        (key_wait_options false logical_state timeout))%string).
  { unfold key_wait_options.
    destruct logical_state, timeout as [t |]; reflexivity. }
  rewrite E. reflexivity.
Qed.

(** [send] tests the mode first and the level second, and calls the host
    only when both are accepted: an unknown mode raises [ValueError]
    whatever the level; a known mode with a level outside 0..100 raises
    [ValueError]; a known mode with a level in 0..100 sets the level,
    sends the keys and returns. *)
Theorem send_outcomes keys mode level h :
  let command :=
    if (mode =? "input")%string then Some "SendInput"
    else if (mode =? "play")%string then Some "SendPlay"
    else if (mode =? "event")%string then Some "SendEvent"
    else None in
  match command with
  | None =>
      send keys mode level h =
      (Raises (ValueError ("unknown send mode: " ++ str_repr mode)), h)
  | Some c =>
      (0 <= level <= 100 ->
       send keys mode level h =
       (Returns tt, h ++ [Call "SendLevel" [VInt level]; Call c [VStr keys]])) /\
      (level < 0 \/ 100 < level ->
       send keys mode level h =
       (Raises (ValueError "level must be between 0 and 100"), h))
  end.
Proof.
  unfold send, bind, ret, raise, SendMode.INPUT, SendMode.PLAY, SendMode.EVENT.
  destruct (mode =? "input")%string;
    [| destruct (mode =? "play")%string;
       [| destruct (mode =? "event")%string]];
    cbn beta iota; try reflexivity;
    (split; intros L;
      [ rewrite (send_level_in_range level h L); unfold ahk_call;
        rewrite <- app_assoc; reflexivity
      | rewrite (send_level_out_of_range level h L); reflexivity ]).
Qed.

(** The two users of send modes disagree on casing: a mode written with
    a capital is refused by [send] and accepted by [Hotstring.update]. *)
Theorem send_mode_casing m keys level h :
  In (lower m) ["input"; "play"; "event"] -> m <> lower m ->
  send keys m level h =
    (Raises (ValueError ("unknown send mode: " ++ str_repr m)), h) /\
  exists token, Hotstring.mode_options (Some m) = [token].
Proof.
  intros I N.
  assert (N1 : (m =? "input")%string = false).
  { apply String.eqb_neq. intros ->. apply N. reflexivity. }
  assert (N2 : (m =? "play")%string = false).
  { apply String.eqb_neq. intros ->. apply N. reflexivity. }
  assert (N3 : (m =? "event")%string = false).
  { apply String.eqb_neq. intros ->. apply N. reflexivity. }
  split.
  - unfold send, bind, raise, SendMode.INPUT, SendMode.PLAY, SendMode.EVENT.
    rewrite N1, N2, N3. reflexivity.
  - unfold Hotstring.mode_options, SendMode.INPUT, SendMode.PLAY,
      SendMode.EVENT. simpl.
    destruct I as [<- | [<- | [<- | []]]]; simpl; eexists; reflexivity.
Qed.


Lemma bracketed_from_app inside l1 l2 :
  bracketed_from inside l1 = true ->
  bracketed_from inside (l1 ++ l2) = bracketed_from false l2.
Proof.
  revert inside. induction l1 as [| c l1 IH]; intros inside B; simpl in *.
  - destruct inside; [discriminate B | reflexivity].
  - destruct (cmd c =? "HotkeyContext")%string.
    + apply andb_true_iff in B. destruct B as [B1 B2].
      rewrite B1. simpl. apply IH. exact B2.
    + destruct (cmd c =? "HotkeyExitContext")%string.
      * apply andb_true_iff in B. destruct B as [B1 B2].
        rewrite B1. simpl. apply IH. exact B2.
      * apply IH. exact B.
Qed.

Lemma kca_ret {A : Type} (a : A) : keeps_contexts_apart (ret a).
Proof. intros h. exists []. split; [symmetry; apply app_nil_r | reflexivity]. Qed.

Lemma kca_raise {A : Type} (e : exn) : keeps_contexts_apart (@raise A e).
Proof. intros h. exists []. split; [symmetry; apply app_nil_r | reflexivity]. Qed.

Lemma kca_lift {A : Type} (o : outcome A) : keeps_contexts_apart (lift o).
Proof. intros h. exists []. split; [symmetry; apply app_nil_r | reflexivity]. Qed.

Lemma kca_bind {A B : Type} (m : io A) (k : A -> io B) :
  keeps_contexts_apart m -> (forall a, keeps_contexts_apart (k a)) ->
  keeps_contexts_apart (bind m k).
Proof.
  intros Hm Hk h. destruct (Hm h) as [n1 [E1 B1]]. unfold bind.
  destruct (m h) as [[a | e] h1]; simpl in E1; subst h1.
  - destruct (Hk a (h ++ n1)) as [n2 [E2 B2]].
    exists (n1 ++ n2). split.
    + rewrite E2. symmetry. apply app_assoc.
    + unfold bracketed. rewrite (bracketed_from_app false n1 n2 B1). exact B2.
  - exists n1. split; [reflexivity | exact B1].
Qed.

Lemma kca_manager ctx directive args :
  (directive =? "HotkeyContext")%string = false ->
  (directive =? "HotkeyExitContext")%string = false ->
  keeps_contexts_apart (BaseContext._manager ctx (ahk_call directive args)).
Proof.
  intros N1 N2 h.
  destruct (manager_one_call ctx directive args h) as [v ->].
  eexists. split; [reflexivity |].
  destruct ctx; unfold bracketed; simpl; rewrite N1, N2; reflexivity.
Qed.

(** As long as the host returns from every call, every operation of
    keys.py that works inside a context leaves the record of calls with
    its contexts apart: each [HotkeyContext] is followed by its
    [HotkeyExitContext] before the next one, and none is left open; what
    the operations raise themselves (the empty key name, the key delay
    that does not convert) they raise outside a context.  [_manager] has
    no [try]/[finally]: when the body of the [with] block raises, the
    exception goes on and [_exit] is not called, so that nothing is added
    to the record after the body; when the body returns,
    [HotkeyExitContext] is called next. *)
Theorem key_ops_keep_contexts_apart :
  (forall op, keeps_contexts_apart (run_key_op op)) /\
  (forall (A : Type) predicate (body : io A) h e h',
     body (h ++ [Call "HotkeyContext" [VFunc predicate]]) = (Raises e, h') ->
     BaseContext._manager (HotkeyContext predicate) body h = (Raises e, h')) /\
  (forall (A : Type) predicate (body : io A) h a h',
     body (h ++ [Call "HotkeyContext" [VFunc predicate]]) = (Returns a, h') ->
     BaseContext._manager (HotkeyContext predicate) body h =
     (Returns a, h' ++ [Call "HotkeyExitContext" []])).
Proof.
  split; [| split].
  - intros op.
    destruct op; simpl;
      unfold Hotkey.enable, Hotkey.disable, Hotkey.toggle, Hotkey.update,
        Hotstring.enable, Hotstring.disable, Hotstring.toggle, Hotstring.update,
        BaseHotkeyContext_hotstring, hotstring_decorator,
        remap_key, hotkey, BaseHotkeyContext_hotkey,
        RemappedKey.enable, RemappedKey.disable, RemappedKey.toggle,
        Hotkey.enable, Hotkey.disable, Hotkey.toggle, Hotkey.update,
        Hotstring.enable, Hotstring.update;
      repeat first
        [ apply kca_ret
        | apply kca_raise
        | apply kca_lift
        | apply kca_manager; reflexivity
        | apply kca_bind; [| intros ?]
        | match goal with
          | |- keeps_contexts_apart (if ?b then _ else _) => destruct b
          | |- keeps_contexts_apart (match ?r with Some _ => _ | None => _ end) =>
              destruct r
          end ].
  - intros A predicate body h e h' E.
    unfold BaseContext._manager, BaseContext._enter, bind, ahk_call, ret.
    cbn beta iota. rewrite E. reflexivity.
  - intros A predicate body h a h' E.
    unfold BaseContext._manager, BaseContext._enter, BaseContext._exit, bind,
      ahk_call, ret.
    cbn beta iota. rewrite E. reflexivity.
Qed.

(** Two case-insensitive hotstrings are the same value exactly when their
    triggers have the same lower case, so every casing of a trigger names
    one hotstring; two case-sensitive ones exactly when their triggers are
    equal.  Constructing a hotstring again from its own fields gives it
    back. *)
Theorem hotstring_identity s t riw ctx :
  (Hotstring.Hotstring s false riw ctx = Hotstring.Hotstring t false riw ctx <->
   lower s = lower t) /\
  (casing_of s t ->
   Hotstring.Hotstring s false riw ctx = Hotstring.Hotstring t false riw ctx) /\
  (Hotstring.Hotstring s true riw ctx = Hotstring.Hotstring t true riw ctx <->
   s = t) /\
  (forall cs,
     let hs := Hotstring.Hotstring s cs riw ctx in
     Hotstring.Hotstring (Hotstring.string hs) (Hotstring.case_sensitive hs)
       (Hotstring.replace_inside_word hs) (Hotstring.context hs) = hs).
Proof.
  split; [| split; [| split]].
  - unfold Hotstring.Hotstring, Hotstring.__post_init__. simpl. split.
    + intros [= E]. exact E.
    + intros ->. reflexivity.
  - intros C. unfold Hotstring.Hotstring, Hotstring.__post_init__. simpl.
    rewrite (casing_of_lower s t C). reflexivity.
  - unfold Hotstring.Hotstring, Hotstring.__post_init__. simpl. split.
    + intros [= E]. exact E.
    + intros ->. reflexivity.
  - intros [|]; unfold Hotstring.Hotstring, Hotstring.__post_init__; simpl.
    + reflexivity.
    + rewrite lower_idempotent. reflexivity.
Qed.

(** The options that [enable], [disable] and [toggle] name a hotstring by
    are the start of the options that [update] sends, when the hotstring
    is case-sensitive or [conform_to_case] is not given; and [update]
    with no argument at all sends just those, with an empty
    replacement. *)
Theorem update_starts_with_id_options self a options h :
  (Hotstring.update self Hotstring.no_args h =
   (Returns tt,
    h ++ in_context (Hotstring.context self)
           [Call "Hotstring" [VStr (Hotstring.id_string self); VStr ""]])) /\
  (Hotstring.update_options self a = Returns options ->
   Hotstring.case_sensitive self = true \/ Hotstring.conform_to_case a = None ->
   exists rest,
     String.concat "" options = (Hotstring._id_options self ++ rest)%string).
Proof.
  split.
  - rewrite update_run. unfold Hotstring.update_options, Hotstring.id_string,
      Hotstring._id_options, hotstring_directive, Hotstring.case_options,
      Hotstring.inside_options. simpl.
    destruct (Hotstring.case_sensitive self),
      (Hotstring.replace_inside_word self); reflexivity.
  - intros E C. rewrite update_options_blocks in E.
    destruct (Hotstring.key_delay_options (Hotstring.key_delay a)) as [k | e];
      simpl in E; [| discriminate E].
    injection E as <-.
    rewrite app_assoc, concat_empty_app.
    eexists. f_equal.
    unfold Hotstring.case_options, Hotstring.inside_options,
      Hotstring._id_options.
    destruct C as [-> | ->].
    + destruct (Hotstring.replace_inside_word self); reflexivity.
    + destruct (Hotstring.case_sensitive self),
        (Hotstring.replace_inside_word self); reflexivity.
Qed.

(** [hotstring] without a replacement registers nothing: it makes no
    call and returns the decorator.  The decorator applied to a
    replacement, and [hotstring] with a replacement, which applies it,
    make no call when the options cannot be built; otherwise they send
    the update with that replacement and then enable the hotstring, each
    inside the context, and yield the hotstring with its trigger
    folded. *)
Theorem hotstring_registration ctx s cs riw kw replacement h :
  let hs := Hotstring.Hotstring s cs riw ctx in
  let registered (r : option Hotstring.replacement_t) :=
    match Hotstring.update_options hs (with_replacement r kw) with
    | Raises e => (Raises e, h)
    | Returns options =>
        (Returns hs,
         h ++ in_context ctx [hotstring_directive hs options r]
           ++ in_context ctx
                [Call "Hotstring"
                   [VStr (Hotstring.id_string hs); VStr ""; VStr "On"]])
    end in
  hotstring_decorator ctx s cs riw kw replacement h = registered replacement /\
  match replacement with
  | None =>
      BaseHotkeyContext_hotstring ctx s None cs riw kw h =
      (Returns (inl (hotstring_decorator ctx s cs riw kw)), h)
  | Some r =>
      BaseHotkeyContext_hotstring ctx s (Some r) cs riw kw h =
      match registered (Some r) with
      | (Returns hs, h') => (Returns (inr hs), h')
      | (Raises e, h') => (Raises e, h')
      end
  end.
Proof.
  intros hs registered.
  assert (Ctx : Hotstring.context hs = ctx).
  { unfold hs, Hotstring.Hotstring, Hotstring.__post_init__.
    destruct cs; reflexivity. }
  assert (D : forall r, hotstring_decorator ctx s cs riw kw r h = registered r).
  { intros r.
    assert (R : hotstring_decorator ctx s cs riw kw r h =
                match Hotstring.update hs (with_replacement r kw) h with
                | (Returns _, h') =>
                    match Hotstring.enable hs h' with
                    | (Returns _, h'') => (Returns hs, h'')
                    | (Raises e, h'') => (Raises e, h'')
                    end
                | (Raises e, h') => (Raises e, h')
                end) by reflexivity.
    rewrite R, update_run. unfold registered.
    destruct (Hotstring.update_options hs (with_replacement r kw))
      as [options | e]; [| reflexivity].
    unfold Hotstring.enable, bind.
    match goal with
    | |- context [BaseContext._manager ?c (ahk_call ?d ?x) ?h'] =>
        destruct (manager_one_call c d x h') as [v ->]
    end.
    rewrite Ctx, <- app_assoc. reflexivity. }
  split; [apply D |].
  destruct replacement as [r |]; [| reflexivity].
  unfold BaseHotkeyContext_hotstring, bind. rewrite (D (Some r)).
  destruct (registered (Some r)) as [[x | e] h']; reflexivity.
Qed.

Lemma increasing_app (l1 l2 : list nat) :
  increasing l1 = true -> increasing l2 = true ->
  (forall x y, In x l1 -> In y l2 -> (x < y)%nat) ->
  increasing (l1 ++ l2) = true.
Proof.
  induction l1 as [| a l1 IH]; intros I1 I2 L; [exact I2 |].
  destruct l1 as [| b l1].
  - simpl. destruct l2 as [| y l2]; [reflexivity |].
    apply andb_true_iff. split; [| exact I2].
    apply Nat.ltb_lt. apply L; left; reflexivity.
  - simpl in I1. apply andb_true_iff in I1. destruct I1 as [Lab I1].
    change ((a <? b)%nat && increasing ((b :: l1) ++ l2) = true).
    rewrite Lab. simpl. apply IH; [exact I1 | exact I2 |].
    intros x y Ix Iy. apply L; [right; exact Ix | exact Iy].
Qed.

Lemma fits_app lo mid hi l1 l2 :
  fits lo mid l1 -> fits mid hi l2 -> fits lo hi (l1 ++ l2).
Proof.
  intros [B1 [I1 F1]] [B2 [I2 F2]]. rewrite Forall_forall in F1, F2.
  split; [lia |]. split.
  - rewrite map_app. apply increasing_app; [exact I1 | exact I2 |].
    intros x y Ix Iy.
    apply in_map_iff in Ix. destruct Ix as [s [<- Is]].
    apply in_map_iff in Iy. destruct Iy as [t [<- It]].
    specialize (F1 s Is). specialize (F2 t It). lia.
  - apply Forall_forall. intros t It. apply in_app_or in It.
    destruct It as [It | It]; [specialize (F1 t It) | specialize (F2 t It)]; lia.
Qed.

Lemma increasing_bounded_length (n : nat) (l : list nat) :
  increasing l = true -> Forall (fun r => (r < n)%nat) l ->
  (List.length l <= n)%nat.
Proof.
  intros I F.
  assert (G : forall lo, (lo <= n)%nat ->
            match l with [] => True | a :: _ => (lo <= a)%nat end ->
            (List.length l + lo <= n)%nat).
  { revert I F. induction l as [| a l IH]; intros I F lo Ln Lo.
    - simpl. exact Ln.
    - inversion F as [| ? ? Fa Fl]; subst.
      destruct l as [| b l].
      + simpl. lia.
      + simpl in I. apply andb_true_iff in I. destruct I as [Lab I].
        apply Nat.ltb_lt in Lab.
        specialize (IH I Fl (S a)).
        simpl in IH |- *. lia. }
  specialize (G 0%nat). destruct l; simpl in *; lia.
Qed.

Ltac fits_by_cases :=
  unfold fits; simpl;
  (split; [lia | split; [reflexivity |]]);
  repeat (apply Forall_cons; [simpl; lia |]); apply Forall_nil.

Lemma fits_case_options self c : fits 0 1 (Hotstring.case_options self c).
Proof.
  unfold Hotstring.case_options.
  destruct (Hotstring.case_sensitive self), c as [[|] |]; fits_by_cases.
Qed.

Lemma fits_inside_options self : fits 1 2 (Hotstring.inside_options self).
Proof.
  unfold Hotstring.inside_options.
  destruct (Hotstring.replace_inside_word self); fits_by_cases.
Qed.

Lemma fits_end_char_options w o : fits 2 4 (Hotstring.end_char_options w o).
Proof.
  unfold Hotstring.end_char_options.
  destruct w as [[|] |], o as [[|] |]; fits_by_cases.
Qed.

Lemma fits_flag_options on off flag r :
  option_rank on = r -> option_rank off = r ->
  fits r (S r) (Hotstring.flag_options on off flag).
Proof.
  intros E1 E2. unfold Hotstring.flag_options, fits.
  destruct flag as [[|] |]; simpl;
    (split; [lia | split; [reflexivity |]]);
    repeat (apply Forall_cons; [rewrite ?E1, ?E2; lia |]); apply Forall_nil.
Qed.

Lemma fits_key_delay_options d k :
  Hotstring.key_delay_options d = Returns k -> fits 5 6 k.
Proof.
  unfold Hotstring.key_delay_options.
  destruct d as [d |]; [| intros [= <-]; fits_by_cases].
  destruct (gt0 d); [destruct (to_int (times1000 d)) |]; simpl;
    intros [= <-]; fits_by_cases.
Qed.

Lemma fits_priority_options p : fits 6 7 (Hotstring.priority_options p).
Proof. destruct p; fits_by_cases. Qed.

Lemma fits_mode_options m : fits 8 9 (Hotstring.mode_options m).
Proof.
  unfold Hotstring.mode_options. destruct m as [m |]; simpl; [| fits_by_cases].
  destruct (lower m =? SendMode.INPUT)%string; [fits_by_cases |].
  destruct (lower m =? SendMode.PLAY)%string; [fits_by_cases |].
  destruct (lower m =? SendMode.EVENT)%string; fits_by_cases.
Qed.

(** Whatever the arguments, the options that [update] builds come in one
    order of kinds, [C ? * O B K P T S Z] by first character, each kind at
    most once. *)
Theorem hotstring_options_order self a options :
  Hotstring.update_options self a = Returns options ->
  increasing (map option_rank options) = true /\
  (List.length options <= 10)%nat.
Proof.
  intros E. rewrite update_options_blocks in E.
  destruct (Hotstring.key_delay_options (Hotstring.key_delay a)) as [k | e] eqn:Ek;
    simpl in E; [| discriminate E].
  injection E as <-.
  assert (F : fits 0 10
    (Hotstring.case_options self (Hotstring.conform_to_case a) ++
     Hotstring.inside_options self ++
     Hotstring.end_char_options (Hotstring.wait_for_end_char a)
       (Hotstring.omit_end_char a) ++
     Hotstring.flag_options "B" "B0" (Hotstring.backspacing a) ++
     k ++
     Hotstring.priority_options (Hotstring.priority a) ++
     Hotstring.flag_options "T" "T0" (Hotstring.text a) ++
     Hotstring.mode_options (Hotstring.mode a) ++
     Hotstring.flag_options "Z" "Z0" (Hotstring.reset_recognizer a))).
  { apply (fits_app 0 1 10); [apply fits_case_options |].
    apply (fits_app 1 2 10); [apply fits_inside_options |].
    apply (fits_app 2 4 10); [apply fits_end_char_options |].
    apply (fits_app 4 5 10); [apply fits_flag_options; reflexivity |].
    apply (fits_app 5 6 10); [exact (fits_key_delay_options _ k Ek) |].
    apply (fits_app 6 7 10); [apply fits_priority_options |].
    apply (fits_app 7 8 10); [apply fits_flag_options; reflexivity |].
    apply (fits_app 8 9 10); [apply fits_mode_options |].
    apply (fits_flag_options "Z" "Z0" _ 9); reflexivity. }
  destruct F as [_ [I F]]. split; [exact I |].
  rewrite <- (length_map option_rank).
  apply (increasing_bounded_length 10 _ I).
  rewrite Forall_forall in *. intros r Ir.
  apply in_map_iff in Ir. destruct Ir as [t [<- It]].
  specialize (F t It). lia.
Qed.

End KeysFurther.

(* ===================================================================== *)
(** * Menus: further properties *)
(* ===================================================================== *)

Section MenuFurther.
Context `{AhkHost} `{Runtime}.

Ltac menu_calls :=
  repeat first
    [ apply only_calls_ret
    | apply only_calls_raise
    | apply only_calls_when
    | apply only_calls_menu_call; split; reflexivity
    | apply only_calls_bind; [| intros ?]
    | match goal with
      | |- only_calls _ (if ?b then _ else _) => destruct b
      end ].

(** A menu is known to the host by the lower case of its name: two names
    of the same lower case make the same menu, the tray menu is [tray],
    and every operation of a menu makes only [Menu] calls whose first
    argument is that lower-cased name. *)
Theorem menu_ops_address_menu name op :
  (forall other, Menu.Menu name = Menu.Menu other <-> lower name = lower other) /\
  Menu.name Menu.tray_menu = "tray" /\
  only_calls
    (fun c => cmd c = "Menu" /\ hd_error (args c) = Some (VStr (lower name)))
    (run_menu_op (Menu.Menu name) op).
Proof.
  split; [| split; [reflexivity |]].
  - intros other. unfold Menu.Menu. split; [intros [= E]; exact E | intros ->; reflexivity].
  - destruct op as [op item | | | | | | | | | | | | |]; [destruct op |..];
      cbn [run_menu_op run_item_op];
      unfold Menu.delete_item, Menu.rename, Menu.check, Menu.uncheck,
        Menu.toggle_check, Menu.enable, Menu.disable, Menu.toggle_enable,
        Menu.set_default, Menu.remove_icon, Menu.update, Menu.insert,
        Menu.insert_separator, Menu.insert_submenu, Menu.add,
        Menu.add_separator, Menu.add_submenu, Menu._insert_or_update,
        Menu.rename, Menu.check, Menu.uncheck, Menu.enable, Menu.disable,
        Menu.set_default, Menu.set_icon, Menu.item_directive,
        Menu.delete_all_items, Menu.delete_menu, Menu.remove_default,
        Menu._remove_standard, Menu.show, Menu.set_color, Menu.set_tray_icon,
        Menu.remove_tray_icon, Menu.set_tip, Menu.set_click;
      menu_calls.
Qed.

(** The insert path of [_insert_or_update], which [add], [add_submenu],
    [insert] and [insert_submenu] take: the first directive is [Insert]
    before the translated position with the new item's name as given; at
    most four more follow, each about the new item; none follows when the
    name is false (a separator); and the result is the menu itself. *)
Theorem insert_path self before new_name callback submenu kw h :
  exists thing rest,
    Menu._insert_or_update self before new_name callback submenu false kw h =
    (Returns (Some self),
     h ++ Call "Menu" [VStr (Menu.name self); VStr "Insert";
                       Menu._item_name before; new_name; thing;
                       VStr (Menu.option_str kw)] :: rest) /\
    Forall (fun c => item_arg c = Some (Menu._item_name new_name)) rest /\
    (List.length rest <= 4)%nat /\
    (value_truth new_name = false -> rest = []).
Proof.
  unfold Menu._insert_or_update.
  set (os := Menu.option_str kw).
  match goal with
  | |- context [VStr "Insert" :: _ :: _ :: ?t :: _] => exists t
  end.
  unfold bind, Menu.when, Menu._call, ahk_call, ret,
    Menu.set_default, Menu.disable, Menu.check, Menu.set_icon,
    Menu.item_directive, bind, Menu._call, ahk_call, ret.
  cbn beta iota.
  destruct (value_truth new_name) eqn:T, (Menu.default kw),
    (Menu.enabled kw) as [[|] |], (Menu.checked kw) as [[|] |],
    (value_truth (Menu.icon kw));
    cbn [truth negb fst snd]; rewrite <- ?app_assoc;
    (eexists; split; [reflexivity |]);
    (split; [repeat constructor |]);
    (split; [simpl; lia |]); solve [reflexivity | discriminate].
Qed.

(** The first directive of the insert path, whatever the position. *)
Lemma insert_first_directive self before new_name callback submenu kw h :
  exists rest,
    snd (Menu._insert_or_update self before new_name callback submenu
           false kw h) =
    h ++ Call "Menu"
           [VStr (Menu.name self); VStr "Insert"; Menu._item_name before;
            new_name;
            match submenu, callback with
            | Some submenu, _ => VStr (":" ++ Menu.name submenu)%string
            | None, Some callback => VFunc callback
            | None, None => VNone
            end;
            VStr (Menu.option_str kw)] :: rest.
Proof.
  unfold Menu._insert_or_update.
  unfold bind, Menu.when, Menu._call, ahk_call, ret,
    Menu.set_default, Menu.disable, Menu.check, Menu.set_icon,
    Menu.item_directive, bind, Menu._call, ahk_call, ret.
  cbn beta iota.
  destruct (value_truth new_name), (Menu.default kw),
    (Menu.enabled kw) as [[|] |], (Menu.checked kw) as [[|] |],
    (value_truth (Menu.icon kw));
    cbn [truth negb fst snd]; rewrite <- ?app_assoc;
    eexists; reflexivity.
Qed.

(** [insert], [insert_separator] and [insert_submenu] check the position
    before anything else: with [None] each raises [TypeError] and no
    directive is sent; with any other position the first directive each
    sends is [Insert] before the translated position, with the new item's
    name, its callback or submenu and its options.  [add_separator], which
    passes [None] itself, sends the one directive that appends a
    separator. *)
Theorem insert_needs_a_position self before item_name callback submenu kw h :
  let refused {A : Type} (r : outcome A * host) :=
    r = (Raises (TypeError "insert_before must not be None"), h) in
  let inserts {A : Type} (new_name thing : value) (options : string)
      (r : outcome A * host) :=
    exists rest,
      snd r =
      h ++ Call "Menu" [VStr (Menu.name self); VStr "Insert";
                        Menu._item_name before; new_name; thing;
                        VStr options] :: rest in
  (before = VNone ->
   refused (Menu.insert self before item_name callback kw h) /\
   refused (Menu.insert_separator self before h) /\
   refused (Menu.insert_submenu self before item_name submenu kw h)) /\
  (before <> VNone ->
   inserts item_name
     (match callback with Some f => VFunc f | None => VNone end)
     (Menu.option_str kw)
     (Menu.insert self before item_name callback kw h) /\
   inserts VNone VNone "" (Menu.insert_separator self before h) /\
   inserts item_name
     (match submenu with
      | Some submenu => VStr (":" ++ Menu.name submenu)%string
      | None => VNone
      end)
     (Menu.option_str (Menu.without_priority kw))
     (Menu.insert_submenu self before item_name submenu kw h)) /\
  snd (Menu.add_separator self h) =
    h ++ [Call "Menu" [VStr (Menu.name self); VStr "Insert"; VNone; VNone;
                       VNone; VStr ""]].
Proof.
  intros refused inserts.
  split; [| split].
  - intros ->. repeat split.
  - intros N. subst inserts. cbn beta.
    unfold Menu.insert, Menu.insert_separator, Menu.insert_submenu.
    destruct before; try congruence; cbn [not_None negb];
      (split; [| split]);
      match goal with
      | |- context [Menu._insert_or_update _ ?b ?n ?c ?s _ ?k _] =>
          destruct (insert_first_directive self b n c s k h) as [rest E];
          exists rest; rewrite E; try destruct s; reflexivity
      end.
  - reflexivity.
Qed.

(** As far as the host returns from each call, [Menu.update] sends the
    steps its arguments ask for and no others, each about the item
    translated once, in one order: rename, options, callback or submenu,
    enable or disable, check or uncheck, icon.  Each step is sent at most
    once, and with nothing to change nothing is sent. *)
Theorem update_directive_order self item new_name callback submenu kw h :
  let directive d extra :=
    Call "Menu"
      (VStr (Menu.name self) :: VStr d :: Menu._item_name item :: extra) in
  let sent :=
    update_steps self (Menu._item_name item) new_name callback submenu kw in
  snd (Menu.update self item new_name callback submenu kw h) = h ++ sent /\
  increasing (map update_rank sent) = true /\
  Forall (fun c => (update_rank c < 6)%nat) sent /\
  (new_name <> VUnset -> In (directive "Rename" [new_name]) sent) /\
  (Menu.option_str kw <> "" ->
   In (directive "Add" [VStr ""; VStr (Menu.option_str kw)]) sent) /\
  (forall sub, submenu = Some sub ->
   In (directive "Add" [VStr (":" ++ Menu.name sub)%string]) sent) /\
  (forall f, submenu = None -> callback = Some f ->
   In (directive "Add" [VFunc f]) sent) /\
  (Menu.enabled kw = Some true -> In (directive "Enable" []) sent) /\
  (Menu.enabled kw = Some false -> In (directive "Disable" []) sent) /\
  (Menu.checked kw = Some true -> In (directive "Check" []) sent) /\
  (Menu.checked kw = Some false -> In (directive "Uncheck" []) sent) /\
  (value_truth (Menu.icon kw) = true ->
   In (directive "Icon"
         [Menu.icon kw;
          VInt (match Menu.icon_number kw with Some n => n | None => 0 end + 1);
          Menu.opt_int (Menu.icon_width kw)]) sent) /\
  (new_name = VUnset -> Menu.option_str kw = "" ->
   callback = None -> submenu = None ->
   Menu.enabled kw = None -> Menu.checked kw = None ->
   value_truth (Menu.icon kw) = false -> sent = []).
Proof.
  intros directive sent.
  split; [rewrite update_run_steps; reflexivity |].
  subst directive sent. unfold update_steps.
  generalize (Menu._item_name item) as it. intros it.
  destruct new_name, (Menu.option_str kw) as [| a o], submenu as [sub |],
    callback as [cb |], (Menu.enabled kw) as [[|] |],
    (Menu.checked kw) as [[|] |], (value_truth (Menu.icon kw));
    cbn [Menu.is_UNSET str_truth app];
    (split; [reflexivity |]);
    (split; [repeat (apply Forall_cons; [cbn; lia |]); apply Forall_nil |]);
    repeat split; intros;
    solve [ congruence | discriminate | reflexivity
          | match goal with
            | E : Some _ = Some _ |- _ => injection E as <-
            end; simpl; tauto
          | simpl; tauto ].
Qed.

(** A position is shifted once only: translating an item that has been
    translated changes nothing, which the update path relies on when it
    hands the translated item on to [rename], [enable] and the others.
    The host string of position [n] reads back as [n + 1], and different
    positions get different host strings. *)
Theorem item_name_once x n m :
  Menu._item_name (Menu._item_name x) = Menu._item_name x /\
  (exists s, Menu._item_name (VInt n) = VStr (s ++ "&") /\
             int_of_str s = Some (n + 1)) /\
  (Menu._item_name (VInt n) = Menu._item_name (VInt m) -> n = m).
Proof.
  split; [destruct x; reflexivity |]. split.
  - exists (str_of_int (n + 1)). split; [reflexivity |].
    apply int_of_str_of_int.
  - simpl. intros [= E]. apply append_cancel_r in E.
    apply str_of_int_inj in E. lia.
Qed.

(** The option string of a menu item is empty exactly when none of
    [priority], [radio], [right], [new_column] and [bar_column] is
    given. *)
Theorem option_str_empty kw :
  Menu.option_str kw = "" <->
  Menu.priority kw = None /\ Menu.radio kw = None /\ Menu.right kw = None /\
  Menu.new_column kw = None /\ Menu.bar_column kw = None.
Proof.
  unfold Menu.option_str, Menu.sign_option.
  destruct (Menu.priority kw) as [p |], (Menu.radio kw) as [[|] |],
    (Menu.right kw) as [[|] |], (Menu.new_column kw) as [[|] |],
    (Menu.bar_column kw) as [[|] |]; simpl;
    (split; [intros E; try discriminate E; repeat split
            | intros [E1 [E2 [E3 [E4 E5]]]]; try discriminate; reflexivity]).
Qed.

End MenuFurther.

(* ===================================================================== *)
(** * The statements at concrete inputs *)
(* ===================================================================== *)

#[local] Existing Instance sample_runtime.
#[local] Existing Instance sample_host.

Definition btw : Hotstring.t :=
  Hotstring.Hotstring "BtW" false false default_context.

Definition BTW : Hotstring.t :=
  Hotstring.Hotstring "BtW" true false default_context.

(** [hotstring("BtW", "by the way")] with every default: the update and
    the enabling that follows it. *)
Example hotstring_with_defaults :
  snd (BaseHotkeyContext_hotstring default_context "BtW"
         (Some (Hotstring.RStr "by the way")) false false
         (hotstring_defaults (Hotstring.RStr "by the way")) []) =
  [Call "Hotstring" [VStr ":C0?0*0O0BK-1P0T0Z0:btw"; VStr "by the way"];
   Call "Hotstring" [VStr ":?0:btw"; VStr ""; VStr "On"]].
Proof. reflexivity. Qed.

(** [key_delay=1.001]: the product is 1000.9999999999999 and [int] cuts
    it to 1000. *)
Example key_delay_is_cut :
  Hotstring.key_delay_options (Some (PyFloat 0x1.004189374bc6ap+0%float)) =
  Returns ["K1000"].
Proof. reflexivity. Qed.

(** [menu.update(0, new_name="Open...", enabled=False)] *)
Example menu_update_by_position :
  snd (Menu.update (Menu.Menu "Tools") (VInt 0) (VStr "Open...") None None
         (Menu.Kwargs None false (Some false) None None None None None
            VNone None None) []) =
  [Call "Menu" [VStr "tools"; VStr "Rename"; VStr "1&"; VStr "Open..."];
   Call "Menu" [VStr "tools"; VStr "Disable"; VStr "1&"]].
Proof. reflexivity. Qed.

(** [update(wait_for_end_char=False, omit_end_char=True)] *)
Lemma update_no_wait_emits_star_witness :
  let a := Hotstring.Args None None (Some false) (Some true)
             None None None None None None in
  Hotstring.end_char_options (Some false) (Some true) = ["*"] /\
  portion end_char_token ["?0"; "*"] = ["*"] /\
  Hotstring.update btw a [] =
    (Returns tt,
     in_context default_context [hotstring_directive btw ["?0"; "*"] None]) /\
  forall o, Hotstring.update btw (with_omit_end_char o a) [] =
            Hotstring.update btw a [].
Proof.
  intros a.
  apply (update_no_wait_emits_star btw a ["?0"; "*"] []); reflexivity.
Defined.

(** [update(omit_end_char=True)], [wait_for_end_char] unset: the end-char
    tokens are [*0] and [O], not [O] alone. *)
Lemma omit_without_wait_counterexample :
  let a := Hotstring.Args None None None (Some true)
             None None None None None None in
  Hotstring.wait_for_end_char a = None /\
  Hotstring.omit_end_char a = Some true /\
  Hotstring.update_options btw a = Returns ["?0"; "*0"; "O"] /\
  portion end_char_token ["?0"; "*0"; "O"] <> ["O"].
Proof.
  simpl. repeat split. discriminate.
Qed.

Lemma end_char_table_witness :
  portion end_char_token ["?0"; "*0"; "O"] = ["*0"; "O"] /\
  portion end_char_token ["?0"; "*0"; "O0"] = ["*0"; "O0"] /\
  Hotstring.update btw
    (Hotstring.Args None None None (Some true) None None None None None None)
    [] = (Returns tt, [Call "Hotstring" [VStr ":?0*0O:btw"; VStr ""]]).
Proof.
  split; [| split].
  - apply (proj1 (end_char_table btw
             (Hotstring.Args None None None (Some true)
                None None None None None None)
             ["?0"; "*0"; "O"] eq_refl)); reflexivity.
  - apply (proj1 (proj2 (proj2 (end_char_table btw
             (Hotstring.Args None None (Some true) (Some false)
                None None None None None None)
             ["?0"; "*0"; "O0"] eq_refl)))); reflexivity.
  - apply (proj2 (proj2 (proj2 (end_char_table btw
             (Hotstring.Args None None None (Some true)
                None None None None None None)
             ["?0"; "*0"; "O"] eq_refl))) []).
Defined.

(** [update(conform_to_case=False)] on a case-sensitive hotstring. *)
Lemma case_sensitive_emits_C_witness :
  let a := Hotstring.Args None (Some false) None None
             None None None None None None in
  Hotstring.update_options BTW a = Returns ["C"; "?0"] /\
  portion case_token ["C"; "?0"] = ["C"] /\
  Hotstring.update BTW a [] =
    (Returns tt, [Call "Hotstring" [VStr ":C?0:BtW"; VStr ""]]) /\
  Hotstring.update_options BTW (with_conform_to_case (Some true) a) =
    Returns ["C"; "?0"].
Proof.
  intros a.
  destruct (case_sensitive_emits_C "BtW" false default_context a ["C"; "?0"] []
              eq_refl) as [_ [_ [P [U [_ I]]]]].
  split; [reflexivity |]. split; [exact P |]. split; [exact U |].
  exact (proj1 (I (Some true))).
Defined.

(** A positive float delay whose product with 1000 is infinite: 2^1020. *)
Lemma key_delay_overflow_counterexample :
  let D := PyFloat 0x1p+1020%float in
  let a := Hotstring.Args None None None None None None None None (Some D) None in
  gt0 D = true /\
  Hotstring.update_options btw a =
    Raises (OverflowError "cannot convert float infinity to integer") /\
  Hotstring.update btw a [] =
    (Raises (OverflowError "cannot convert float infinity to integer"), []).
Proof.
  repeat split.
Qed.

Lemma key_delay_scaling_witness :
  let delay d :=
    Hotstring.Args None None None None None None None None (Some d) None in
  Hotstring.update btw (delay (PyInt 2)) [] =
    (Returns tt, [Call "Hotstring" [VStr ":?0K2000:btw"; VStr ""]]) /\
  Hotstring.update btw (delay (PyFloat 0.25)) [] =
    (Returns tt, [Call "Hotstring" [VStr ":?0K250:btw"; VStr ""]]) /\
  Hotstring.update btw (delay (PyInt (-1))) [] =
    (Returns tt, [Call "Hotstring" [VStr ":?0K-1:btw"; VStr ""]]) /\
  Hotstring.update btw (delay (PyFloat infinity)) [] =
    (Raises (OverflowError "cannot convert float infinity to integer"), []).
Proof.
  intros delay. split; [| split; [| split]].
  - destruct (proj1 (proj2 (key_delay_scaling btw (delay (PyInt 2)))) 2
                eq_refl eq_refl) as [options [E [P U]]].
    injection E as <-. exact (U []).
  - destruct (proj1 (proj2 (proj2 (key_delay_scaling btw (delay (PyFloat 0.25)))))
                0.25%float 250 eq_refl eq_refl eq_refl) as [options [E [P U]]].
    injection E as <-. exact (U []).
  - destruct (proj1 (proj2 (proj2 (proj2
                (key_delay_scaling btw (delay (PyInt (-1)))))))
                (PyInt (-1)) eq_refl eq_refl) as [options [E [P U]]].
    injection E as <-. exact (U []).
  - apply (proj2 (proj2 (proj2 (proj2
             (key_delay_scaling btw (delay (PyFloat infinity))))))
             infinity); reflexivity.
Defined.

(** [update(mode="Play")] and [update(mode="fast")]. *)
Lemma send_mode_tokens_witness :
  let with_m m :=
    Hotstring.Args None None None None None None None (Some m) None None in
  Hotstring.mode_options (Some "Play") = ["SP"] /\
  (portion send_mode_token ["?0"; "SP"] = Hotstring.mode_options (Some "Play") /\
   Hotstring.update btw (with_m "Play") [] =
     (Returns tt, [Call "Hotstring" [VStr ":?0SP:btw"; VStr ""]])) /\
  (Hotstring.mode_options (Some "fast") = [] /\
   Hotstring.update btw (with_m "fast") [] =
   Hotstring.update btw (with_mode None (with_m "fast")) []) /\
  fst (Hotstring.update btw (with_m "fast") []) = Returns tt.
Proof.
  intros with_m. split; [| split; [| split]].
  - apply (proj1 (proj2 (send_mode_tokens btw (with_m "Play") "Play" []
                           eq_refl))).
    reflexivity.
  - apply (proj1 (proj2 (proj2 (proj2 (proj2
             (send_mode_tokens btw (with_m "Play") "Play" [] eq_refl)))))
             ["?0"; "SP"]).
    reflexivity.
  - apply (proj1 (proj2 (proj2 (proj2
             (send_mode_tokens btw (with_m "fast") "fast" [] eq_refl)))));
      discriminate.
  - apply (proj1 (proj2 (proj2 (proj2 (proj2 (proj2
             (send_mode_tokens btw (with_m "fast") "fast" [] eq_refl)))))
             [] eq_refl)).
Defined.

Lemma send_level_range_witness :
  (exists msg, send "{F24}" "input" 101 [] = (Raises (ValueError msg), [])) /\
  (exists msg, send "{F24}" "input" (-1) [] = (Raises (ValueError msg), [])) /\
  send "{F24}" "input" 0 [] =
    (Returns tt, [Call "SendLevel" [VInt 0]; Call "SendInput" [VStr "{F24}"]]) /\
  send "{F24}" "event" 100 [] =
    (Returns tt, [Call "SendLevel" [VInt 100]; Call "SendEvent" [VStr "{F24}"]]).
Proof.
  split; [| split; [| split]].
  - apply (proj1 (send_level_range "{F24}" "input" 101 [])).
    right. reflexivity.
  - apply (proj1 (send_level_range "{F24}" "input" (-1) [])).
    left. reflexivity.
  - apply (proj2 (send_level_range "{F24}" "input" 0 []) (or_introl eq_refl)).
  - apply (proj2 (send_level_range "{F24}" "input" 100 []) (or_intror eq_refl)).
Defined.

Lemma is_key_toggled_validates_witness :
  (exists msg, is_key_toggled "Shift" [] = (Raises (ValueError msg), [])) /\
  snd (is_key_toggled "ScrollLock" []) =
    [Call "GetKeyState" [VStr "ScrollLock"; VStr "T"]] /\
  snd (is_key_toggled "INS" []) = [Call "GetKeyState" [VStr "INS"; VStr "T"]].
Proof.
  split; [| split].
  - eexists.
    apply (proj1 (is_key_toggled_validates "Shift" [])).
    apply str_in_not_In. reflexivity.
  - apply (proj1 (proj2 (is_key_toggled_validates "ScrollLock" []))).
    apply str_in_In. reflexivity.
  - apply (proj2 (proj2 (is_key_toggled_validates "INS" [])) "ins").
    + apply str_in_In. reflexivity.
    + repeat constructor; right; left; split; reflexivity.
Defined.

Lemma item_position_translated_witness :
  let m := Menu.Menu "Tools" in
  Menu.delete_item m (VStr "Open") [] =
    (Returns tt, [Call "Menu" [VStr "tools"; VStr "Delete"; VStr "Open"]]) /\
  Menu.delete_item m (VInt 0) [] =
    (Returns tt, [Call "Menu" [VStr "tools"; VStr "Delete"; VStr "1&"]]) /\
  Menu.set_icon m (VInt 2) (VStr "a.ico") None (Some 16) [] =
    (Returns tt,
     [Call "Menu" [VStr "tools"; VStr "Icon"; VStr "3&"; VStr "a.ico";
                   VInt 1; VInt 16]]) /\
  Menu.update m (VInt 0) (VStr "Open...") None (Some (Menu.Menu "Recent"))
    (Menu.Kwargs (Some 5) false (Some false) (Some true) None None None None
       (VStr "a.ico") (Some 3) None) [] =
    (Returns tt,
     [Call "Menu" [VStr "tools"; VStr "Rename"; VStr "1&"; VStr "Open..."];
      Call "Menu" [VStr "tools"; VStr "Add"; VStr "1&"; VStr ""; VStr "P5"];
      Call "Menu" [VStr "tools"; VStr "Add"; VStr "1&"; VStr ":recent"];
      Call "Menu" [VStr "tools"; VStr "Disable"; VStr "1&"];
      Call "Menu" [VStr "tools"; VStr "Check"; VStr "1&"];
      Call "Menu" [VStr "tools"; VStr "Icon"; VStr "1&"; VStr "a.ico";
                   VInt 4; VNone]]) /\
  exists c rest,
    snd (Menu.insert_separator m (VStr "Open") []) = c :: rest /\
    nth_error (args c) 1 = Some (VStr "Insert") /\
    item_arg c = Some (VStr "Open").
Proof.
  intros m. split; [| split; [| split; [| split]]].
  - apply (proj1 (proj2 (proj2 (proj2
             (item_position_translated m op_delete_item)))) "Open" [] "Delete" []).
    reflexivity.
  - rewrite (proj1 (proj2 (proj2
               (item_position_translated m op_delete_item))) 0 []).
    reflexivity.
  - change (run_item_op m (op_set_icon (VStr "a.ico") None (Some 16))
              (VInt 2) [] =
            (Returns tt,
             [Call "Menu" [VStr "tools"; VStr "Icon"; VStr "3&"; VStr "a.ico";
                           VInt 1; VInt 16]])).
    rewrite (proj1 (proj2 (proj2
               (item_position_translated m
                  (op_set_icon (VStr "a.ico") None (Some 16))))) 2 []).
    apply (proj1 (proj2 (proj2 (proj2 (proj2
             (item_position_translated m
                (op_set_icon (VStr "a.ico") None (Some 16)))))))
             "3&" [] (VStr "a.ico") None (Some 16) eq_refl).
  - set (kw := Menu.Kwargs (Some 5) false (Some false) (Some true)
                 None None None None (VStr "a.ico") (Some 3) None).
    set (op := op_update (VStr "Open...") None (Some (Menu.Menu "Recent")) kw).
    change (run_item_op m op (VInt 0) [] =
            (Returns tt,
             update_steps m (VStr "1&") (VStr "Open...") None
               (Some (Menu.Menu "Recent")) kw)).
    rewrite (proj1 (proj2 (proj2 (item_position_translated m op))) 0 []).
    apply (proj1 (proj2 (proj2 (proj2 (proj2 (proj2
             (item_position_translated m op))))))
             "1&" [] (VStr "Open...") None (Some (Menu.Menu "Recent")) kw
             eq_refl).
  - destruct (proj2 (proj2 (proj2 (proj2 (proj2 (proj2 (proj2
               (item_position_translated m op_insert_separator)))))))
               "Open" [] eq_refl) as [c [rest E]].
    exists c, rest. exact E.
Defined.

(** [set_caps_lock_state("off")] switches Caps Lock on. *)
Lemma set_key_state_word_witness :
  set_caps_lock_state (VStr "off") [] =
    (Returns tt, [Call "SetCapsLockState" [VStr "On"]]) /\
  set_num_lock_state (VStr "Always_On") [] =
    (Returns tt, [Call "SetNumLockState" [VStr "AlwaysOn"]]).
Proof.
  split.
  - apply (proj2 (proj2 (proj2
             (set_key_state_word "SetCapsLockState" (VStr "off") [])))
             "off" eq_refl).
    + discriminate.
    + apply str_in_not_In. reflexivity.
  - apply (proj1 (proj2
             (set_key_state_word "SetNumLockState" (VStr "Always_On") []))
             "Always_On" eq_refl).
    apply str_in_In. reflexivity.
Defined.

Lemma send_outcomes_witness :
  send "{F24}" "play" 50 [] =
    (Returns tt, [Call "SendLevel" [VInt 50]; Call "SendPlay" [VStr "{F24}"]]) /\
  send "{F24}" "play" 500 [] =
    (Raises (ValueError "level must be between 0 and 100"), []).
Proof.
  split.
  - apply (proj1 (send_outcomes "{F24}" "play" 50 [])). lia.
  - apply (proj2 (send_outcomes "{F24}" "play" 500 [])). right. reflexivity.
Defined.

Lemma send_mode_casing_witness :
  send "{F24}" "Input" 0 [] =
    (Raises (ValueError ("unknown send mode: " ++ str_repr "Input")), []) /\
  exists token, Hotstring.mode_options (Some "Input") = [token].
Proof.
  apply (send_mode_casing "Input" "{F24}" 0 []).
  - apply str_in_In. reflexivity.
  - discriminate.
Defined.


Lemma hotstring_identity_witness :
  Hotstring.Hotstring "BTW" false false default_context =
  Hotstring.Hotstring "btw" false false default_context.
Proof.
  apply (proj1 (proj2 (hotstring_identity "BTW" "btw" false default_context))).
  repeat constructor; right; left; split; reflexivity.
Defined.

Lemma update_starts_with_id_options_witness :
  exists rest, String.concat "" ["C"; "?0"; "*"; "B0"] = ("C?0" ++ rest)%string.
Proof.
  apply (proj2 (update_starts_with_id_options BTW
                  (Hotstring.Args None (Some true) (Some false) None
                     (Some false) None None None None None)
                  ["C"; "?0"; "*"; "B0"] [])).
  - reflexivity.
  - left. reflexivity.
Defined.

Lemma hotstring_options_order_witness :
  increasing
    (map option_rank ["C0"; "?0"; "*0"; "O0"; "B"; "K-1"; "P0"; "T0"; "Z0"]) =
  true.
Proof.
  apply (hotstring_options_order btw
           (hotstring_defaults (Hotstring.RStr "by the way"))).
  reflexivity.
Defined.

Lemma hotkey_option_string_inj_witness :
  Some true = Some true /\ Some 2 = Some 2 /\
  @None Z = None /\ Some 0 = Some 0.
Proof.
  apply (hotkey_option_string_inj (Some true) (Some 2) None (Some 0)
           (Some true) (Some 2) None (Some 0)).
  reflexivity.
Defined.

Lemma insert_path_witness :
  exists thing rest,
    Menu._insert_or_update (Menu.Menu "Tools") (VInt 2) VNone None None false
      Menu.insert_or_update_defaults [] =
    (Returns (Some (Menu.Menu "Tools")),
     Call "Menu" [VStr "tools"; VStr "Insert"; VStr "3&"; VNone; thing;
                  VStr ""] :: rest) /\
    rest = [].
Proof.
  destruct (insert_path (Menu.Menu "Tools") (VInt 2) VNone None None
              Menu.insert_or_update_defaults [])
    as [thing [rest [E [_ [_ N]]]]].
  exists thing, rest. split; [exact E | apply N; reflexivity].
Defined.

Lemma item_name_once_witness : 2 = 2.
Proof.
  apply (proj2 (proj2 (item_name_once VNone 2 2))). reflexivity.
Defined.



(** A [with] block in a context whose body raises: the context has been
    entered and is not left; a body that returns is followed by
    [HotkeyExitContext]. *)
Lemma key_ops_keep_contexts_apart_witness :
  let active := UserFunc "is_active" in
  BaseContext._manager (HotkeyContext active)
    (raise (A := unit) (ValueError "invalid key name")) [] =
    (Raises (ValueError "invalid key name"),
     [Call "HotkeyContext" [VFunc active]]) /\
  BaseContext._manager (HotkeyContext active) (ret tt) [] =
    (Returns tt,
     [Call "HotkeyContext" [VFunc active]; Call "HotkeyExitContext" []]).
Proof.
  intros active. split.
  - apply (proj1 (proj2 key_ops_keep_contexts_apart) unit active
             (raise (ValueError "invalid key name")) []
             (ValueError "invalid key name")
             [Call "HotkeyContext" [VFunc active]]).
    reflexivity.
  - apply (proj2 (proj2 key_ops_keep_contexts_apart) unit active (ret tt) []
             tt [Call "HotkeyContext" [VFunc active]]).
    reflexivity.
Defined.

(** [insert_separator(None)] and [insert("Open", "New", callback)]. *)
Lemma insert_needs_a_position_witness :
  let m := Menu.Menu "Tools" in
  Menu.insert_separator m VNone [] =
    (Raises (TypeError "insert_before must not be None"), []) /\
  exists rest,
    snd (Menu.insert m (VStr "Open") (VStr "New") (Some (UserFunc "new"))
           Menu.add_defaults []) =
    Call "Menu" [VStr "tools"; VStr "Insert"; VStr "Open"; VStr "New";
                 VFunc (UserFunc "new");
                 VStr "P0 -Radio -Right -Break -BarBreak"] :: rest.
Proof.
  intros m. split.
  - apply (proj1 (insert_needs_a_position m VNone VNone
                    None None Menu.add_defaults []) eq_refl).
  - apply (proj1 (proj2 (insert_needs_a_position m (VStr "Open") (VStr "New")
                           (Some (UserFunc "new")) None Menu.add_defaults []))).
    discriminate.
Defined.

(** An [update] of the first item that asks for all six steps. *)
Lemma update_directive_order_witness :
  let m := Menu.Menu "Tools" in
  let kw := Menu.Kwargs (Some 5) false (Some true) (Some false)
              (Some true) None None None (VStr "a.ico") None (Some 16) in
  let sent :=
    [Call "Menu" [VStr "tools"; VStr "Rename"; VStr "1&"; VStr "Open..."];
     Call "Menu" [VStr "tools"; VStr "Add"; VStr "1&"; VStr "";
                  VStr "P5 +Radio"];
     Call "Menu" [VStr "tools"; VStr "Add"; VStr "1&"; VFunc (UserFunc "open")];
     Call "Menu" [VStr "tools"; VStr "Enable"; VStr "1&"];
     Call "Menu" [VStr "tools"; VStr "Uncheck"; VStr "1&"];
     Call "Menu" [VStr "tools"; VStr "Icon"; VStr "1&"; VStr "a.ico";
                  VInt 1; VInt 16]] in
  snd (Menu.update m (VInt 0) (VStr "Open...") (Some (UserFunc "open")) None
         kw []) = sent /\
  increasing (map update_rank sent) = true /\
  In (Call "Menu" [VStr "tools"; VStr "Rename"; VStr "1&"; VStr "Open..."])
     sent /\
  In (Call "Menu" [VStr "tools"; VStr "Uncheck"; VStr "1&"]) sent.
Proof.
  intros m kw sent.
  destruct (update_directive_order m (VInt 0) (VStr "Open...")
              (Some (UserFunc "open")) None kw [])
    as [E [I [_ [R [_ [_ [_ [_ [_ [_ [U _]]]]]]]]]]].
  split; [exact E |]. split; [exact I |].
  split; [apply R; discriminate | apply U; reflexivity].
Defined.

(** [hotstring("BtW")] makes no call and returns the decorator; the
    decorator applied to a replacement registers the hotstring. *)
Lemma hotstring_registration_witness :
  let kw := hotstring_defaults (Hotstring.RStr "") in
  BaseHotkeyContext_hotstring default_context "BtW" None false false kw [] =
    (Returns (inl (hotstring_decorator default_context "BtW" false false kw)),
     []) /\
  snd (hotstring_decorator default_context "BtW" false false kw
         (Some (Hotstring.RStr "by the way")) []) =
    [Call "Hotstring" [VStr ":C0?0*0O0BK-1P0T0Z0:btw"; VStr "by the way"];
     Call "Hotstring" [VStr ":?0:btw"; VStr ""; VStr "On"]].
Proof.
  intros kw. split.
  - exact (proj2 (hotstring_registration default_context "BtW" false false
                    kw None [])).
  - rewrite (proj1 (hotstring_registration default_context "BtW" false false
                      kw (Some (Hotstring.RStr "by the way")) [])).
    reflexivity.
Defined.
